(** * Sarvam AI SDK provider: shallow embedding and verified properties

    The development follows the TypeScript sources of the provider:

    - [shared/map-finish-reason]  -> [MapFinishReason]
    - [chat/model] ([doStream])   -> [ChatModel]
    - [chat/convert-messages]     -> [ConvertMessages]
    - [translation/model]         -> [TranslationModel]

    [StreamSpec] words the stream contract as predicates on the enqueued
    parts, [StreamInv] relates the translator's variables to it, and
    [Samples] holds the streams of the provider's test-suite.

    A JavaScript value that may be [null] or [undefined] is an [option]
    wherever the source only tests it with [!= null], [== null], [??] or
    [?.]; where the two are told apart by the claim, [Js.nullish] keeps
    them distinct.  Numbers that the code only copies (token counts,
    timestamps) or uses as array keys (tool-call indices) are integers. *)

From Stdlib Require Import ZArith String List Ascii Bool Lia.
From stdpp Require Import base option list gmap strings.

Local Open Scope string_scope.
Local Open Scope list_scope.

(** ** JavaScript helpers *)

Module Js.

(** A value of type [T | null | undefined]. *)
Inductive nullish (A : Type) : Type :=
| Undefined
| Null
| Val (a : A).
Global Arguments Undefined {A}.
Global Arguments Null {A}.
Global Arguments Val {A} a.

(** [x ?? undefined] : [null] collapses to [undefined]. *)
Definition orUndefined {A} (x : nullish A) : option A :=
  match x with
  | Val a => Some a
  | Null | Undefined => None
  end.

(** [s.length > 0] *)
Definition nonEmpty (s : string) : bool :=
  match s with
  | EmptyString => false
  | String _ _ => true
  end.

(** [s.startsWith(p)] *)
Definition startsWith (p s : string) : bool := String.prefix p s.

(** [s] with each apostrophe turned into a double quote; the JSON texts
    of the sample streams are written with apostrophes. *)
Fixpoint dq (s : string) : string :=
  match s with
  | EmptyString => EmptyString
  | String c r => String (if Ascii.eqb c "'" then "034"%char else c) (dq r)
  end.

(** Truthiness of an optional string: [undefined], [null] and [""] are falsy. *)
Definition truthy (s : option string) : bool :=
  match s with
  | Some t => nonEmpty t
  | None => false
  end.

End Js.

(** ** A recogniser for JSON texts

    [isParsableJson] is imported by [chat/model] from the provider
    utilities, so the stream translator is verified for an arbitrary
    predicate on strings.  The sample streams run with the recogniser
    below, which follows the grammar of RFC 8259: white space, the three
    literals, numbers, strings with their escapes, arrays and objects. *)

Module Json.

Definition isChar (c d : ascii) : bool := Ascii.eqb c d.

Definition isWs (c : ascii) : bool :=
  isChar c " " || isChar c "009" || isChar c "010" || isChar c "013".

Definition isDigit (c : ascii) : bool :=
  let n := nat_of_ascii c in (48 <=? n)%nat && (n <=? 57)%nat.

Definition isHex (c : ascii) : bool :=
  let n := nat_of_ascii c in
  isDigit c || ((65 <=? n)%nat && (n <=? 70)%nat) || ((97 <=? n)%nat && (n <=? 102)%nat).

Definition isEscape (c : ascii) : bool :=
  isChar c "034" || isChar c "\" || isChar c "/" || isChar c "b" || isChar c "f" || isChar c "n"
  || isChar c "r" || isChar c "t".

Fixpoint skipWs (s : list ascii) : list ascii :=
  match s with
  | c :: r => if isWs c then skipWs r else s
  | [] => []
  end.

Fixpoint skipDigits (s : list ascii) : list ascii :=
  match s with
  | c :: r => if isDigit c then skipDigits r else s
  | [] => []
  end.

(** one or more digits *)
Definition digits1 (s : list ascii) : option (list ascii) :=
  match s with
  | c :: r => if isDigit c then Some (skipDigits r) else None
  | [] => None
  end.

Definition fraction (s : list ascii) : option (list ascii) :=
  match s with
  | c :: r => if isChar c "." then digits1 r else Some s
  | [] => Some s
  end.

Definition exponent (s : list ascii) : option (list ascii) :=
  match s with
  | c :: r =>
      if isChar c "e" || isChar c "E" then
        match r with
        | d :: r' => if isChar d "+" || isChar d "-" then digits1 r' else digits1 r
        | [] => None
        end
      else Some s
  | [] => Some s
  end.

Definition number (s : list ascii) : option (list ascii) :=
  let s1 := match s with
            | c :: r => if isChar c "-" then r else s
            | [] => s
            end in
  match s1 with
  | c :: r =>
      if isChar c "0" then fraction r ≫= exponent
      else if isDigit c then fraction (skipDigits r) ≫= exponent
      else None
  | [] => None
  end.

(** the characters of a string literal after its opening quote *)
Fixpoint stringBody (s : list ascii) : option (list ascii) :=
  match s with
  | [] => None
  | c :: r =>
      if isChar c "034" then Some r
      else if isChar c "\" then
        match r with
        | e :: r1 =>
            if isEscape e then stringBody r1
            else if isChar e "u" then
              match r1 with
              | h1 :: h2 :: h3 :: h4 :: r2 =>
                  if isHex h1 && isHex h2 && isHex h3 && isHex h4
                  then stringBody r2 else None
              | _ => None
              end
            else None
        | [] => None
        end
      else if (nat_of_ascii c <? 32)%nat then None
      else stringBody r
  end.

Definition literal (w : string) (s : list ascii) : option (list ascii) :=
  let l := list_ascii_of_string w in
  if decide (take (length l) s = l) then Some (drop (length l) s) else None.

Inductive Mode := MValue | MElements | MMembers.

Fixpoint parse (fuel : nat) (m : Mode) (s : list ascii) : option (list ascii) :=
  match fuel with
  | O => None
  | S fuel' =>
      match m with
      | MValue =>
          match skipWs s with
          | c :: r =>
              if isChar c "{" then
                match skipWs r with
                | d :: r' => if isChar d "}" then Some r' else parse fuel' MMembers r
                | [] => None
                end
              else if isChar c "[" then
                match skipWs r with
                | d :: r' => if isChar d "]" then Some r' else parse fuel' MElements r
                | [] => None
                end
              else if isChar c "034" then stringBody r
              else if isChar c "t" then literal "true" (c :: r)
              else if isChar c "f" then literal "false" (c :: r)
              else if isChar c "n" then literal "null" (c :: r)
              else number (c :: r)
          | [] => None
          end
      | MElements =>
          match parse fuel' MValue s with
          | Some r =>
              match skipWs r with
              | c :: r' =>
                  if isChar c "," then parse fuel' MElements r'
                  else if isChar c "]" then Some r'
                  else None
              | [] => None
              end
          | None => None
          end
      | MMembers =>
          match skipWs s with
          | q :: r =>
              if isChar q "034" then
                match stringBody r with
                | Some r1 =>
                    match skipWs r1 with
                    | c :: r2 =>
                        if isChar c ":" then
                          match parse fuel' MValue r2 with
                          | Some r3 =>
                              match skipWs r3 with
                              | d :: r4 =>
                                  if isChar d "," then parse fuel' MMembers r4
                                  else if isChar d "}" then Some r4
                                  else None
                              | [] => None
                              end
                          | None => None
                          end
                        else None
                    | [] => None
                    end
                | None => None
                end
              else None
          | [] => None
          end
      end
  end.

(** [true] iff the whole string is one JSON value surrounded by white space *)
Definition recognise (s : string) : bool :=
  let l := list_ascii_of_string s in
  match parse (2 * length l + 2) MValue l with
  | Some r => match skipWs r with [] => true | _ => false end
  | None => false
  end.

End Json.

(** ** shared/map-finish-reason *)

Module MapFinishReason.

(** The [unified] field of [LanguageModelV3FinishReason]. *)
Inductive Unified :=
| Stop            (* "stop" *)
| Length          (* "length" *)
| ContentFilter   (* "content-filter" *)
| ToolCalls       (* "tool-calls" *)
| Error           (* "error" *)
| Other.          (* "other" *)

Global Instance Unified_eq_dec : EqDecision Unified.
Proof. solve_decision. Defined.

Record FinishReason := mkFinishReason {
  unified : Unified;
  raw : option string;   (* [None] is [undefined] *)
}.

Global Instance FinishReason_eq_dec : EqDecision FinishReason.
Proof. solve_decision. Defined.

Definition mapSarvamFinishReason (finishReason : Js.nullish string) : FinishReason :=
  match finishReason with
  | Js.Val s =>
      if String.eqb s "stop" then mkFinishReason Stop (Some s)
      else if String.eqb s "length" then mkFinishReason Length (Some s)
      else if String.eqb s "content_filter" then mkFinishReason ContentFilter (Some s)
      else if String.eqb s "function_call" || String.eqb s "tool_calls"
           then mkFinishReason ToolCalls (Some s)
      else mkFinishReason Other (Js.orUndefined finishReason)
  | _ => mkFinishReason Other (Js.orUndefined finishReason)
  end.

End MapFinishReason.

(** ** chat/model : the streaming translator of [doStream] *)

Module ChatModel.

Import MapFinishReason.

(** *** Stream fragments ([sarvamChatChunkSchema]) *)

Record FunctionDelta := mkFunctionDelta {
  fn_name : option string;
  fn_arguments : option string;
}.

Record ToolCallDelta := mkToolCallDelta {
  tcd_index : Z;
  tcd_id : option string;
  tcd_type : option string;          (* ["function"] or absent *)
  tcd_function : FunctionDelta;
}.

Record Delta := mkDelta {
  content : option string;
  reasoning : option string;
  tool_calls : option (list ToolCallDelta);
}.

Record Choice := mkChoice {
  delta : option Delta;
  finish_reason : option string;
  choice_index : Z;
}.

Record UsageTotals := mkUsageTotals {
  prompt_tokens : option Z;
  completion_tokens : option Z;
}.

Record XSarvam := mkXSarvam {
  x_usage : option UsageTotals;
}.

Record Chunk := mkChunk {
  chunk_id : option string;
  created : option Z;
  model : option string;
  choices : list Choice;
  x_sarvam : option XSarvam;
}.

(** A validated value is a chunk or the vendor's error object
    ([sarvamErrorDataSchema], whose payload the translator only forwards). *)
Inductive ChunkValue :=
| ChunkData (c : Chunk)
| ChunkError (err : string).

(** [ParseResult<...>] of the event-source handler. *)
Inductive ParseResult :=
| Success (value : ChunkValue)
| Failure (err : string).

(** *** Stream parts ([LanguageModelV3StreamPart]) *)

Record Usage := mkUsage {
  in_total : option Z;
  in_noCache : option Z;
  in_cacheRead : option Z;
  in_cacheWrite : option Z;
  out_total : option Z;
  out_text : option Z;
  out_reasoning : option Z;
}.

Inductive Warning :=
| WarnOther (message : string)
| WarnUnsupported (feature : string) (details : option string).

Record ResponseMetadata := mkResponseMetadata {
  meta_id : option string;
  meta_modelId : option string;
  meta_timestamp : option Z;
}.

Inductive StreamPart :=
| PError (err : string)
| PStreamStart (warnings : list Warning)
| PResponseMetadata (m : ResponseMetadata)
| ReasoningStart (id : string)
| ReasoningDelta (id delta : string)
| ReasoningEnd (id : string)
| TextStart (id : string)
| TextDelta (id delta : string)
| TextEnd (id : string)
| ToolInputStart (id toolName : string)
| ToolInputDelta (id delta : string)
| ToolInputEnd (id : string)
| ToolCall (toolCallId toolName input : string)
| Finish (finishReason : FinishReason) (usage : Usage).

(** The piece of translator state an [enqueue] belongs to: the text
    flag, the reasoning flag, the slot [toolCalls[index]], or none.  The
    tag is bookkeeping of the model; the consumer sees [snd]. *)
Inductive Channel :=
| ChText
| ChReasoning
| ChTool (index : Z)
| ChControl.

Definition TaggedPart : Type := Channel * StreamPart.

Global Instance Channel_eq_dec : EqDecision Channel.
Proof. solve_decision. Defined.
Global Instance Usage_eq_dec : EqDecision Usage.
Proof. solve_decision. Defined.
Global Instance Warning_eq_dec : EqDecision Warning.
Proof. solve_decision. Defined.
Global Instance ResponseMetadata_eq_dec : EqDecision ResponseMetadata.
Proof. solve_decision. Defined.
Global Instance StreamPart_eq_dec : EqDecision StreamPart.
Proof. solve_decision. Defined.

(** *** What [doStream] closes over *)

Record Env := mkEnv {
  textId : string;                              (* generateId() *)
  reasoningId : string;                         (* generateId() *)
  warnings : list Warning;                      (* from getArgs *)
  isParsableJson : string -> bool;              (* provider utilities *)
  getResponseMetadata : Chunk -> ResponseMetadata;
}.

(** An entry of the [toolCalls] array; its [type] is always "function". *)
Record ToolCallState := mkToolCall {
  tc_id : string;
  tc_name : string;
  tc_arguments : string;
  tc_hasFinished : bool;
}.

(** The variables captured by [transform] and [flush].  [toolCalls] is a
    JavaScript array written at arbitrary numeric keys, hence a map. *)
Record State := mkState {
  toolCalls : gmap Z ToolCallState;
  finishReason : FinishReason;
  usage : Usage;
  isFirstChunk : bool;
  textStarted : bool;
  reasoningStarted : bool;
}.

Definition undefinedUsage : Usage :=
  mkUsage None None None None None None None.

Definition initialState : State :=
  mkState ∅ (mkFinishReason Other None) undefinedUsage true false false.

Definition setToolCalls (st : State) (t : gmap Z ToolCallState) : State :=
  mkState t (finishReason st) (usage st) (isFirstChunk st) (textStarted st) (reasoningStarted st).
Definition setFinishReason (st : State) (f : FinishReason) : State :=
  mkState (toolCalls st) f (usage st) (isFirstChunk st) (textStarted st) (reasoningStarted st).
Definition setUsage (st : State) (u : Usage) : State :=
  mkState (toolCalls st) (finishReason st) u (isFirstChunk st) (textStarted st) (reasoningStarted st).
Definition setIsFirstChunk (st : State) (b : bool) : State :=
  mkState (toolCalls st) (finishReason st) (usage st) b (textStarted st) (reasoningStarted st).
Definition setTextStarted (st : State) (b : bool) : State :=
  mkState (toolCalls st) (finishReason st) (usage st) (isFirstChunk st) b (reasoningStarted st).
Definition setReasoningStarted (st : State) (b : bool) : State :=
  mkState (toolCalls st) (finishReason st) (usage st) (isFirstChunk st) (textStarted st) b.

Inductive Exception :=
| InvalidResponseDataError (data : ToolCallDelta) (message : string).

(** How a block of statements ends: normally with a value, or by [throw]. *)
Inductive Completion (A : Type) :=
| Normal (a : A)
| Throw (e : Exception).
Global Arguments Normal {A} a.
Global Arguments Throw {A} e.

(** *** The body of the [for (const toolCallDelta of delta.tool_calls)] loop *)

(** [controller.enqueue] of tool-input-end and tool-call, after which the
    entry gets [hasFinished = true]. *)
Definition finishToolCall (index : Z) (tc : ToolCallState) : list TaggedPart :=
  [ (ChTool index, ToolInputEnd (tc_id tc));
    (ChTool index, ToolCall (tc_id tc) (tc_name tc) (tc_arguments tc)) ].

Definition markFinished (tc : ToolCallState) : ToolCallState :=
  mkToolCall (tc_id tc) (tc_name tc) (tc_arguments tc) true.

Definition toolCallStep (env : Env) (tcs : gmap Z ToolCallState) (d : ToolCallDelta)
  : list TaggedPart * Completion (gmap Z ToolCallState) :=
  let index := tcd_index d in
  match tcs !! index with
  | None =>
      (* toolCalls[index] == null : first fragment of this tool call *)
      if negb (bool_decide (tcd_type d = Some "function")) then
        ([], Throw (InvalidResponseDataError d "Expected 'function' type."))
      else
        match tcd_id d with
        | None => ([], Throw (InvalidResponseDataError d "Expected 'id' to be a string."))
        | Some id =>
            match fn_name (tcd_function d) with
            | None =>
                ([], Throw (InvalidResponseDataError d "Expected 'function.name' to be a string."))
            | Some name =>
                let toolCall :=
                  mkToolCall id name (default "" (fn_arguments (tcd_function d))) false in
                let started := [ (ChTool index, ToolInputStart (tc_id toolCall) (tc_name toolCall)) ] in
                let first :=
                  if Js.nonEmpty (tc_arguments toolCall)
                  then [ (ChTool index, ToolInputDelta (tc_id toolCall) (tc_arguments toolCall)) ]
                  else [] in
                if isParsableJson env (tc_arguments toolCall) then
                  (started ++ first ++ finishToolCall index toolCall,
                   Normal (<[index := markFinished toolCall]> tcs))
                else
                  (started ++ first, Normal (<[index := toolCall]> tcs))
            end
        end
  | Some toolCall =>
      if tc_hasFinished toolCall then ([], Normal tcs)
      else
        let toolCall' :=
          match fn_arguments (tcd_function d) with
          | Some a =>
              mkToolCall (tc_id toolCall) (tc_name toolCall)
                         (tc_arguments toolCall +:+ a) (tc_hasFinished toolCall)
          | None => toolCall
          end in
        let next :=
          [ (ChTool index,
             ToolInputDelta (tc_id toolCall') (default "" (fn_arguments (tcd_function d)))) ] in
        if isParsableJson env (tc_arguments toolCall') then
          (next ++ finishToolCall index toolCall',
           Normal (<[index := markFinished toolCall']> tcs))
        else
          (next, Normal (<[index := toolCall']> tcs))
  end.

Fixpoint toolCallLoop (env : Env) (tcs : gmap Z ToolCallState) (ds : list ToolCallDelta)
  : list TaggedPart * Completion (gmap Z ToolCallState) :=
  match ds with
  | [] => ([], Normal tcs)
  | d :: rest =>
      match toolCallStep env tcs d with
      | (out, Normal tcs') =>
          let (out', r) := toolCallLoop env tcs' rest in (out ++ out', r)
      | (out, Throw e) => (out, Throw e)
      end
  end.

(** *** The statements of [transform] before the loop *)

(** [if (isFirstChunk) { ... }] *)
Definition openStream (env : Env) (value : Chunk) (st : State) : list TaggedPart * State :=
  if isFirstChunk st then
    ([ (ChControl, PStreamStart (warnings env));
       (ChControl, PResponseMetadata (getResponseMetadata env value)) ],
     setIsFirstChunk st false)
  else ([], st).

Definition usageOf (u : UsageTotals) : Usage :=
  mkUsage (prompt_tokens u) None None None (completion_tokens u) None None.

(** [value.x_sarvam?.usage] *)
Definition chunkUsage (value : Chunk) : option UsageTotals :=
  x_sarvam value ≫= x_usage.

(** [if (value.x_sarvam?.usage != null) { usage = ... }] *)
Definition trackUsage (value : Chunk) (st : State) : State :=
  match chunkUsage value with
  | Some u => setUsage st (usageOf u)
  | None => st
  end.

(** [value.choices[0]] *)
Definition firstChoice (value : Chunk) : option Choice := head (choices value).

(** [if (choice?.finish_reason != null) { finishReason = ... }] *)
Definition trackFinishReason (value : Chunk) (st : State) : State :=
  match firstChoice value ≫= finish_reason with
  | Some r => setFinishReason st (mapSarvamFinishReason (Js.Val r))
  | None => st
  end.

(** [if (delta.reasoning != null && delta.reasoning.length > 0) { ... }] *)
Definition emitReasoning (env : Env) (d : Delta) (st : State) : list TaggedPart * State :=
  match reasoning d with
  | Some r =>
      if Js.nonEmpty r then
        ((if reasoningStarted st then [] else [ (ChReasoning, ReasoningStart (reasoningId env)) ])
           ++ [ (ChReasoning, ReasoningDelta (reasoningId env) r) ],
         setReasoningStarted st true)
      else ([], st)
  | None => ([], st)
  end.

(** [if (delta.content != null && delta.content.length > 0) { ... }] *)
Definition emitText (env : Env) (d : Delta) (st : State) : list TaggedPart * State :=
  match content d with
  | Some c =>
      if Js.nonEmpty c then
        ((if textStarted st then [] else [ (ChText, TextStart (textId env)) ])
           ++ [ (ChText, TextDelta (textId env) c) ],
         setTextStarted st true)
      else ([], st)
  | None => ([], st)
  end.

(** [if (delta.tool_calls != null) { for ... }] *)
Definition emitToolCalls (env : Env) (d : Delta) (st : State)
  : list TaggedPart * Completion State :=
  match tool_calls d with
  | Some ds =>
      match toolCallLoop env (toolCalls st) ds with
      | (out, Normal tcs) => (out, Normal (setToolCalls st tcs))
      | (out, Throw e) => (out, Throw e)
      end
  | None => ([], Normal st)
  end.

Definition errorFinishReason : FinishReason := mkFinishReason Error None.

(** *** [transform(chunk, controller)] : the enqueued parts, in order, and
    how the call ends *)
Definition transform (env : Env) (st : State) (chunk : ParseResult)
  : list TaggedPart * Completion State :=
  match chunk with
  | Failure err =>
      ([ (ChControl, PError err) ], Normal (setFinishReason st errorFinishReason))
  | Success (ChunkError err) =>
      ([ (ChControl, PError err) ], Normal (setFinishReason st errorFinishReason))
  | Success (ChunkData value) =>
      let (out1, st1) := openStream env value st in
      let st2 := trackUsage value st1 in
      let st3 := trackFinishReason value st2 in
      match firstChoice value ≫= delta with
      | None => (out1, Normal st3)
      | Some d =>
          let (out4, st4) := emitReasoning env d st3 in
          let (out5, st5) := emitText env d st4 in
          let (out6, r) := emitToolCalls env d st5 in
          (out1 ++ out4 ++ out5 ++ out6, r)
      end
  end.

(** *** [flush(controller)] *)
Definition flush (env : Env) (st : State) : list TaggedPart :=
  (if reasoningStarted st then [ (ChReasoning, ReasoningEnd (reasoningId env)) ] else [])
  ++ (if textStarted st then [ (ChText, TextEnd (textId env)) ] else [])
  ++ [ (ChControl, Finish (finishReason st) (usage st)) ].

(** *** The transform stream

    A [TransformStream] calls [transform] once per fragment, in order, and
    [flush] when the source closes; a [transform] that throws puts the
    stream in the errored state, and [flush] is never called. *)
Fixpoint transformAll (env : Env) (st : State) (chunks : list ParseResult)
  : list TaggedPart * Completion State :=
  match chunks with
  | [] => ([], Normal st)
  | c :: rest =>
      match transform env st c with
      | (out, Normal st') =>
          let (out', r) := transformAll env st' rest in (out ++ out', r)
      | (out, Throw e) => (out, Throw e)
      end
  end.

Inductive Outcome :=
| Closed (out : list TaggedPart)
| Errored (out : list TaggedPart) (e : Exception).

Definition enqueued (o : Outcome) : list TaggedPart :=
  match o with
  | Closed out => out
  | Errored out _ => out
  end.

Definition pump (env : Env) (st : State) (chunks : list ParseResult) : Outcome :=
  match transformAll env st chunks with
  | (out, Normal st') => Closed (out ++ flush env st')
  | (out, Throw e) => Errored out e
  end.

Definition doStream (env : Env) (chunks : list ParseResult) : Outcome :=
  pump env initialState chunks.

(** The parts as the consumer of the stream reads them. *)
Definition parts (o : Outcome) : list StreamPart := (enqueued o).*2.

End ChatModel.

(** ** The stream contract, as predicates on the enqueued parts *)

Module StreamSpec.

Import MapFinishReason ChatModel.

(** What a part means for the channel it is enqueued on. *)
Inductive Role :=
| RStart
| RDelta (d : string)
| REnd
| RFinal (input : string)
| RControl
| RBad.

Definition role (c : Channel) (p : StreamPart) : Role :=
  match c, p with
  | ChText, TextStart _ => RStart
  | ChText, TextDelta _ d => RDelta d
  | ChText, TextEnd _ => REnd
  | ChReasoning, ReasoningStart _ => RStart
  | ChReasoning, ReasoningDelta _ d => RDelta d
  | ChReasoning, ReasoningEnd _ => REnd
  | ChTool _, ToolInputStart _ _ => RStart
  | ChTool _, ToolInputDelta _ d => RDelta d
  | ChTool _, ToolInputEnd _ => REnd
  | ChTool _, ToolCall _ _ input => RFinal input
  | ChControl, PError _ => RControl
  | ChControl, PStreamStart _ => RControl
  | ChControl, PResponseMetadata _ => RControl
  | ChControl, Finish _ _ => RControl
  | _, _ => RBad
  end.

(** Life cycle of one channel: nothing enqueued yet; started, with the
    deltas enqueued so far concatenated; a tool input ended and awaiting
    its tool-call; nothing more may follow. *)
Inductive Phase :=
| Unseen
| Open (acc : string)
| Ending (acc : string)
| Done.

Definition Phases : Type := Channel -> Phase.

Definition upd (ph : Phases) (c : Channel) (q : Phase) : Phases :=
  fun c' => if decide (c' = c) then q else ph c'.

(** The phase after a part with role [r], or [None] when the contract
    forbids the part in phase [p]. *)
Definition next (valid : string -> bool) (c : Channel) (r : Role) (p : Phase) : option Phase :=
  match r, p with
  | RControl, _ => Some p
  | RStart, Unseen => Some (Open "")
  | RDelta d, Open acc => Some (Open (acc +:+ d))
  | REnd, Open acc => Some (match c with ChTool _ => Ending acc | _ => Done end)
  | RFinal input, Ending acc =>
      if bool_decide (input = acc) && valid input then Some Done else None
  | _, _ => None
  end.

Fixpoint monitor (valid : string -> bool) (ph : Phases) (out : list TaggedPart) : Prop :=
  match out with
  | [] => True
  | (c, p) :: rest =>
      match next valid c (role c p) (ph c) with
      | Some q => monitor valid (upd ph c q) rest
      | None => False
      end
  end.

Fixpoint advance (valid : string -> bool) (ph : Phases) (out : list TaggedPart) : Phases :=
  match out with
  | [] => ph
  | (c, p) :: rest =>
      match next valid c (role c p) (ph c) with
      | Some q => advance valid (upd ph c q) rest
      | None => ph
      end
  end.

Definition fresh : Phases := fun _ => Unseen.

(** Every tool-call part directly follows the tool-input-end of the same
    channel and id. *)
Fixpoint paired (out : list TaggedPart) : Prop :=
  match out with
  | [] => True
  | (c, ToolInputEnd id) :: rest =>
      match rest with
      | (c', ToolCall id' _ _) :: rest' => c = c' /\ id = id' /\ paired rest'
      | _ => False
      end
  | (_, ToolCall _ _ _) :: _ => False
  | _ :: rest => paired rest
  end.

(** The deltas enqueued on a channel, in order. *)
Definition deltaOn (c : Channel) (x : TaggedPart) : option string :=
  if decide (x.1 = c) then
    match role c x.2 with
    | RDelta d => Some d
    | _ => None
    end
  else None.

Definition deltasOn (c : Channel) (out : list TaggedPart) : list string :=
  omap (deltaOn c) out.

Definition joined (l : list string) : string := foldr String.append "" l.

(** *** What arrived, per channel *)

(** [choices[0].delta] of a well-formed fragment *)
Definition fragmentDelta (chunk : ParseResult) : option Delta :=
  match chunk with
  | Success (ChunkData value) => firstChoice value ≫= delta
  | _ => None
  end.

Definition nonEmptyOnly (o : option string) : option string :=
  o ≫= fun s => if Js.nonEmpty s then Some s else None.

Definition arrivedText (chunks : list ParseResult) : list string :=
  omap (fun c => nonEmptyOnly (fragmentDelta c ≫= content)) chunks.

Definition arrivedReasoning (chunks : list ParseResult) : list string :=
  omap (fun c => nonEmptyOnly (fragmentDelta c ≫= reasoning)) chunks.

(** the argument fragments addressed to [toolCalls[i]], absent ones as "" *)
Definition argsFor (i : Z) (ds : list ToolCallDelta) : list string :=
  omap (fun d => if decide (tcd_index d = i)
                 then Some (default "" (fn_arguments (tcd_function d))) else None) ds.

Definition fragmentToolCalls (chunk : ParseResult) : list ToolCallDelta :=
  default [] (fragmentDelta chunk ≫= tool_calls).

Definition arrivedArgs (i : Z) (chunks : list ParseResult) : list string :=
  argsFor i (flat_map fragmentToolCalls chunks).

Definition arrived (c : Channel) (chunks : list ParseResult) : list string :=
  match c with
  | ChText => arrivedText chunks
  | ChReasoning => arrivedReasoning chunks
  | ChTool i => arrivedArgs i chunks
  | ChControl => []
  end.

(** The fragments up to and including the one that makes the accumulated
    string [acc] parsable. *)
Fixpoint untilParsable (valid : string -> bool) (acc : string) (frags : list string)
  : list string :=
  match frags with
  | [] => []
  | f :: rest =>
      f :: (if valid (acc +:+ f) then [] else untilParsable valid (acc +:+ f) rest)
  end.

(** no delta is enqueued for an empty first fragment *)
Definition dropEmptyHead (l : list string) : list string :=
  match l with
  | f :: rest => if Js.nonEmpty f then l else rest
  | [] => []
  end.

(** *** Finish reason and usage carried by a fragment *)

Definition malformed (chunk : ParseResult) : bool :=
  match chunk with
  | Failure _ => true
  | Success (ChunkError _) => true
  | Success (ChunkData _) => false
  end.

Definition fragmentFinishReason (chunk : ParseResult) : option FinishReason :=
  match chunk with
  | Success (ChunkData value) =>
      (fun r => mapSarvamFinishReason (Js.Val r)) <$> (firstChoice value ≫= finish_reason)
  | _ => Some errorFinishReason
  end.

Definition fragmentUsage (chunk : ParseResult) : option Usage :=
  match chunk with
  | Success (ChunkData value) => usageOf <$> chunkUsage value
  | _ => None
  end.

Definition lastUsage (chunks : list ParseResult) : Usage :=
  default undefinedUsage (last (omap fragmentUsage chunks)).

(** a well-formed fragment that carries a finish reason of its own *)
Definition overridesFinishReason (chunk : ParseResult) : bool :=
  negb (malformed chunk) && bool_decide (is_Some (fragmentFinishReason chunk)).

Definition isEnd (p : StreamPart) : bool :=
  match p with
  | TextEnd _ | ReasoningEnd _ | Finish _ _ => true
  | _ => false
  end.

(** what [flush] must enqueue after the parts [body] *)
Definition closing (env : Env) (body : list StreamPart) (f : FinishReason) (u : Usage)
  : list StreamPart :=
  (if bool_decide (ReasoningStart (reasoningId env) ∈ body)
   then [ReasoningEnd (reasoningId env)] else [])
  ++ (if bool_decide (TextStart (textId env) ∈ body) then [TextEnd (textId env)] else [])
  ++ [Finish f u].

End StreamSpec.

(** ** The translator state seen through the contract *)

Module StreamInv.

Import MapFinishReason ChatModel StreamSpec.

Definition toolPhase (o : option ToolCallState) : Phase :=
  match o with
  | None => Unseen
  | Some tc => if tc_hasFinished tc then Done else Open (tc_arguments tc)
  end.

Definition flagPhase (started : bool) (p : Phase) : Prop :=
  if started then exists acc, p = Open acc else p = Unseen.

Definition tracksTools (tcs : gmap Z ToolCallState) (ph : Phases) : Prop :=
  forall i, ph (ChTool i) = toolPhase (tcs !! i).

Definition tracks (st : State) (ph : Phases) : Prop :=
  flagPhase (textStarted st) (ph ChText)
  /\ flagPhase (reasoningStarted st) (ph ChReasoning)
  /\ tracksTools (toolCalls st) ph.

Definition onChannel (c : Channel) (out : list TaggedPart) : Prop :=
  forall x, x ∈ out -> x.1 = c.

Definition noEnd (out : list TaggedPart) : Prop :=
  forall x, x ∈ out -> isEnd x.2 = false.

(** whether part [p] was enqueued *)
Definition has (p : StreamPart) (out : list TaggedPart) : bool :=
  bool_decide (p ∈ out.*2).

(** The deltas still to come on [toolCalls[i]] when the fragments [frags]
    arrive for it. *)
Definition expected (valid : string -> bool) (o : option ToolCallState) (frags : list string)
  : list string :=
  match o with
  | None => dropEmptyHead (untilParsable valid "" frags)
  | Some tc =>
      if tc_hasFinished tc then [] else untilParsable valid (tc_arguments tc) frags
  end.

Definition optionList {A} (o : option A) : list A :=
  match o with
  | Some a => [a]
  | None => []
  end.

(** What the statements of [transform] outside the tool-call loop do. *)
Definition summary (env : Env) (st : State) (out : list TaggedPart) (st' : State)
    (txt rsn : list string) : Prop :=
  textStarted st' = textStarted st || has (TextStart (textId env)) out
  /\ reasoningStarted st' = reasoningStarted st || has (ReasoningStart (reasoningId env)) out
  /\ deltasOn ChText out = txt
  /\ deltasOn ChReasoning out = rsn
  /\ (forall i, deltasOn (ChTool i) out = [])
  /\ toolCalls st' = toolCalls st
  /\ usage st' = usage st
  /\ finishReason st' = finishReason st.

(** the accumulator a channel starts from *)
Definition startAcc (p : Phase) : option string :=
  match p with
  | Unseen => Some ""
  | Open a => Some a
  | Ending a => Some a
  | Done => None
  end.

Definition accOf (p : Phase) : option string :=
  match p with
  | Open a => Some a
  | Ending a => Some a
  | _ => None
  end.

(** the deltas of [toolCalls[i]] across a run of the loop over [ds] *)
Definition toolsOk (env : Env) (st : State) (out : list TaggedPart) (st' : State)
    (ds : list ToolCallDelta) : Prop :=
  forall i rest,
    deltasOn (ChTool i) out ++ expected (isParsableJson env) (toolCalls st' !! i) rest
    = expected (isParsableJson env) (toolCalls st !! i) (argsFor i ds ++ rest).

(** What the [transform] calls on [chunks] do to the captured variables. *)
Definition transformOk (env : Env) (st : State) (chunks : list ParseResult)
    (out : list TaggedPart) (st' : State) : Prop :=
  textStarted st' = textStarted st || has (TextStart (textId env)) out
  /\ reasoningStarted st' = reasoningStarted st || has (ReasoningStart (reasoningId env)) out
  /\ deltasOn ChText out = arrivedText chunks
  /\ deltasOn ChReasoning out = arrivedReasoning chunks
  /\ toolsOk env st out st' (flat_map fragmentToolCalls chunks)
  /\ usage st' = default (usage st) (last (omap fragmentUsage chunks))
  /\ finishReason st' = default (finishReason st) (last (omap fragmentFinishReason chunks)).

(** the first fragment of a tool call lacks its type, id or name *)
Definition invalidFirst (d : ToolCallDelta) : Prop :=
  tcd_type d <> Some "function" \/ tcd_id d = None \/ fn_name (tcd_function d) = None.

Definition noError (out : list TaggedPart) : Prop :=
  forall x, x ∈ out -> forall err, x.2 <> PError err.

(** phases read off a tool-call array alone *)
Definition toolPhases (tcs : gmap Z ToolCallState) : Phases :=
  fun c => match c with
           | ChTool j => toolPhase (tcs !! j)
           | _ => Unseen
           end.

End StreamInv.

(** ** The two contract clauses the translator does not meet, as worded *)

Module AsStated.

Import MapFinishReason ChatModel StreamSpec.

(** clause (e): once a malformed fragment has arrived, the finish part
    carries the error finish-reason *)
Definition errorFinishAfterMalformed (env : Env) (chunks : list ParseResult) : Prop :=
  forall pre bad post,
    chunks = pre ++ bad :: post -> malformed bad = true ->
    exists body u, parts (doStream env chunks) = body ++ [Finish errorFinishReason u].

(** clause (b): per channel, the concatenated deltas are the concatenated
    fragments that arrived *)
Definition deltasAreArrivals (env : Env) (chunks : list ParseResult) : Prop :=
  forall c, joined (deltasOn c (enqueued (doStream env chunks))) = joined (arrived c chunks).

End AsStated.

(** ** chat/convert-messages *)

Module ConvertMessages.

Section Convert.

(** [JSON.stringify] on tool inputs and outputs, [Buffer.from(data).toString("base64")]
    and the values they act on come from the platform. *)
Variable JSONValue : Type.
Variable JSON_stringify : JSONValue -> string.
Variable toBase64 : list Byte.byte -> string.

(** *** [LanguageModelV3Prompt] *)

(** [part.data] : a [URL] (kept as what [toString()] returns), a string
    (already base64), or bytes. *)
Inductive DataContent :=
| DataURL (href : string)
| DataString (s : string)
| DataBytes (b : list Byte.byte).

Inductive UserPart :=
| UserText (text : string)
| UserFile (mediaType : string) (data : DataContent).

Inductive AssistantPart :=
| AssistantText (text : string)
| AssistantToolCall (toolCallId toolName : string) (input : JSONValue)
| AssistantOther.               (* reasoning, file, tool-result: no [case] *)

Inductive ToolOutput :=
| OutText (value : string)
| OutErrorText (value : string)
| OutJson (value : JSONValue)
| OutErrorJson (value : JSONValue)
| OutExecutionDenied (reason : option string)
| OutOther (output : JSONValue).  (* [default:] the whole output object *)

Inductive ToolPart :=
| ToolResult (toolCallId : string) (output : ToolOutput)
| ToolOther.                    (* [type !== "tool-result"] *)

Inductive Turn :=
| System (content : string)
| User (content : list UserPart)
| Assistant (content : list AssistantPart)
| Tool (content : list ToolPart).

(** *** [SarvamChatPrompt] *)

Inductive SarvamContentPart :=
| ContentPartText (text : string)
| ContentPartImage (url : string).

Inductive SarvamUserContent :=
| ContentString (s : string)
| ContentParts (l : list SarvamContentPart).

Record SarvamMessageToolCall := mkToolCall {
  id : string;
  name : string;
  arguments : string;
}.

Inductive SarvamMessage :=
| SystemMessage (content : string)
| UserMessage (content : SarvamUserContent)
| AssistantMessage (content : string) (tool_calls : option (list SarvamMessageToolCall))
| ToolMessage (tool_call_id content : string).

Inductive Exception :=
| UnsupportedFunctionalityError (functionality : string).

Definition Result (A : Type) : Type := Exception + A.

Definition newline : string := String "010" EmptyString.

(** *** The converter *)

(** the callback of [content.map] in the user case *)
Definition convertUserPart (part : UserPart) : Result SarvamContentPart :=
  match part with
  | UserText text => inr (ContentPartText text)
  | UserFile mediaType data =>
      if negb (Js.startsWith "image/" mediaType) then
        inl (UnsupportedFunctionalityError "Non-image file content parts in user messages")
      else
        match data with
        | DataURL href => inr (ContentPartImage href)
        | DataString s =>
            inr (ContentPartImage ("data:" +:+ mediaType +:+ ";base64," +:+ s))
        | DataBytes b =>
            inr (ContentPartImage ("data:" +:+ mediaType +:+ ";base64," +:+ toBase64 b))
        end
  end.

(** [content.map(...)], stopping at the first callback that throws *)
Fixpoint convertUserParts (parts : list UserPart) : Result (list SarvamContentPart) :=
  match parts with
  | [] => inr []
  | part :: rest =>
      match convertUserPart part with
      | inl e => inl e
      | inr p =>
          match convertUserParts rest with
          | inl e => inl e
          | inr ps => inr (p :: ps)
          end
      end
  end.

(** one iteration of [for (const part of content)] in the assistant case,
    on the variables [text] and [toolCalls] *)
Definition assistantStep (acc : string * list SarvamMessageToolCall) (part : AssistantPart)
  : string * list SarvamMessageToolCall :=
  let (text, toolCalls) := acc in
  match part with
  | AssistantText t => (text +:+ t, toolCalls)
  | AssistantToolCall toolCallId toolName input =>
      (text, toolCalls ++ [mkToolCall toolCallId toolName (JSON_stringify input)])
  | AssistantOther => (text, toolCalls)
  end.

Definition toolContent (output : ToolOutput) : string :=
  match output with
  | OutText value | OutErrorText value => value
  | OutJson value | OutErrorJson value => JSON_stringify value
  | OutExecutionDenied reason => default "Tool execution denied" reason
  | OutOther whole => JSON_stringify whole
  end.

(** one iteration of [for (const toolResponse of content)] in the tool case *)
Definition toolStep (messages : list SarvamMessage) (toolResponse : ToolPart)
  : list SarvamMessage :=
  match toolResponse with
  | ToolOther => messages
  | ToolResult toolCallId output => messages ++ [ToolMessage toolCallId (toolContent output)]
  end.

(** one iteration of [for (const { role, content } of prompt)] *)
Definition convertTurn (fakeToolSystemPrompt : option string)
    (messages : list SarvamMessage) (turn : Turn) : Result (list SarvamMessage) :=
  match turn with
  | System content =>
      let contentData :=
        match fakeToolSystemPrompt with
        | Some fake =>
            if Js.nonEmpty fake then content +:+ newline +:+ newline +:+ fake else content
        | None => content
        end in
      inr (messages ++ [SystemMessage contentData])
  | User content =>
      match content with
      | [UserText text] => inr (messages ++ [UserMessage (ContentString text)])
      | _ =>
          match convertUserParts content with
          | inl e => inl e
          | inr parts => inr (messages ++ [UserMessage (ContentParts parts)])
          end
      end
  | Assistant content =>
      let (text, toolCalls) := fold_left assistantStep content ("", []) in
      inr (messages ++
             [AssistantMessage text
                (if bool_decide (0 < length toolCalls)%nat then Some toolCalls else None)])
  | Tool content => inr (fold_left toolStep content messages)
  end.

Fixpoint convertLoop (fakeToolSystemPrompt : option string)
    (messages : list SarvamMessage) (prompt : list Turn) : Result (list SarvamMessage) :=
  match prompt with
  | [] => inr messages
  | turn :: rest =>
      match convertTurn fakeToolSystemPrompt messages turn with
      | inl e => inl e
      | inr messages' => convertLoop fakeToolSystemPrompt messages' rest
      end
  end.

Definition convertToSarvamChatMessages (prompt : list Turn)
    (fakeToolSystemPrompt : option string) : Result (list SarvamMessage) :=
  convertLoop fakeToolSystemPrompt [] prompt.

(** *** The conversion as the specification words it *)

Definition imageUrl (mediaType : string) (data : DataContent) : string :=
  match data with
  | DataURL href => href
  | DataString s => "data:" +:+ mediaType +:+ ";base64," +:+ s
  | DataBytes b => "data:" +:+ mediaType +:+ ";base64," +:+ toBase64 b
  end.

Definition partOf (part : UserPart) : SarvamContentPart :=
  match part with
  | UserText text => ContentPartText text
  | UserFile mediaType data => ContentPartImage (imageUrl mediaType data)
  end.

Definition textOf (part : AssistantPart) : option string :=
  match part with
  | AssistantText t => Some t
  | _ => None
  end.

Definition toolCallOf (part : AssistantPart) : option SarvamMessageToolCall :=
  match part with
  | AssistantToolCall toolCallId toolName input =>
      Some (mkToolCall toolCallId toolName (JSON_stringify input))
  | _ => None
  end.

Definition toolMessageOf (part : ToolPart) : option SarvamMessage :=
  match part with
  | ToolResult toolCallId output => Some (ToolMessage toolCallId (toolContent output))
  | ToolOther => None
  end.

Definition systemContent (fake : option string) (content : string) : string :=
  if Js.truthy fake then content +:+ newline +:+ newline +:+ default "" fake else content.

Definition nonEmptyList {A} (l : list A) : option (list A) :=
  match l with
  | [] => None
  | _ => Some l
  end.

(** the vendor messages of one turn *)
Definition messagesOfTurn (fake : option string) (turn : Turn) : list SarvamMessage :=
  match turn with
  | System content => [SystemMessage (systemContent fake content)]
  | User [UserText text] => [UserMessage (ContentString text)]
  | User content => [UserMessage (ContentParts (map partOf content))]
  | Assistant content =>
      [AssistantMessage (foldr String.append "" (omap textOf content))
                        (nonEmptyList (omap toolCallOf content))]
  | Tool content => omap toolMessageOf content
  end.

(** every file part of every user turn is an image *)
Definition imagesOnly (prompt : list Turn) : Prop :=
  forall content mediaType data,
    User content ∈ prompt -> UserFile mediaType data ∈ content ->
    Js.startsWith "image/" mediaType = true.

End Convert.

Global Arguments System {JSONValue}.
Global Arguments User {JSONValue}.
Global Arguments Tool {JSONValue}.
Global Arguments Assistant {JSONValue}.
Global Arguments AssistantText {JSONValue}.
Global Arguments AssistantOther {JSONValue}.
Global Arguments ToolOther {JSONValue}.
Global Arguments OutText {JSONValue}.
Global Arguments OutErrorText {JSONValue}.
Global Arguments OutExecutionDenied {JSONValue}.
Global Arguments OutJson {JSONValue}.
Global Arguments OutErrorJson {JSONValue}.
Global Arguments OutOther {JSONValue}.
Global Arguments AssistantToolCall {JSONValue}.
Global Arguments ToolResult {JSONValue}.

End ConvertMessages.

(** ** translation/model *)

Module TranslationModel.

Import ConvertMessages.

(** [SarvamTranslationSettings] is declared in translation/settings; these
    are the fields [getArgs] reads, each possibly [undefined]. *)
Record SarvamTranslationSettings := mkSettings {
  model : option string;
  from : option string;
  to : option string;
  mode : option string;
  numerals_format : option string;
  enable_preprocessing : option bool;
  output_script : option string;
  speaker_gender : option string;
}.

(** the request body built by [getArgs] *)
Record Args := mkArgs {
  input : string;
  source_language_code : string;
  target_language_code : option string;
  args_numerals_format : string;
  args_enable_preprocessing : bool;
  args_output_script : option string;    (* [None] is [null] *)
  args_speaker_gender : string;
  args_mode : string;
  args_model : string;
}.

Inductive Exception :=
| Error (message : string)
| Unsupported (e : ConvertMessages.Exception)
| ApiCallError (status : Z).

Record HttpRequest := mkRequest {
  path : string;
  body : Args;
}.

(** [sarvamTranslationResponseSchema], as far as [doGenerate] reads it *)
Record Response := mkResponse {
  translated_text : option string;
}.

(** the result of [doGenerate], as far as it depends on the response *)
Record Generated := mkGenerated {
  gen_text : list string;          (* [content], text parts only *)
  gen_request_body : Args;         (* [request.body], before [JSON.stringify] *)
}.

(** The model object: [settings] and [modelId] are [readonly]; the
    constructor sets [modelId = settings.model ?? "mayura:v1"]. *)
Definition modelId (settings : SarvamTranslationSettings) : string :=
  default "mayura:v1" (model settings).

(** the settings [getArgs] rejects *)
Definition rejected (settings : SarvamTranslationSettings) : Prop :=
  from settings = to settings
  \/ (modelId settings = "sarvam-translate:v1"
      /\ ((exists m, mode settings = Some m /\ m <> "formal")
          \/ from settings = None \/ from settings = Some "auto")).

Section Translation.

Variable JSONValue : Type.
Variable JSON_stringify : JSONValue -> string.
Variable toBase64 : list Byte.byte -> string.

(** [String(m.content)] inside [Array.prototype.join] *)
Definition contentToString (c : SarvamUserContent) : string :=
  match c with
  | ContentString s => s
  | ContentParts l => String.concat "," (map (fun _ => "[object Object]") l)
  end.

Definition userContent (m : SarvamMessage) : option string :=
  match m with
  | UserMessage c => Some (contentToString c)
  | _ => None
  end.

Definition getArgs (settings : SarvamTranslationSettings) (prompt : list (Turn JSONValue))
  : Exception + (list SarvamMessage * Args) :=
  if bool_decide (from settings = to settings) then
    inl (Error "Source and target languages code must be different.")
  else if bool_decide (modelId settings = "sarvam-translate:v1")
          && negb (bool_decide (default "formal" (mode settings) = "formal")) then
    inl (Error "Sarvam 'sarvam-translate:v1' only support mode formal.")
  else if bool_decide (modelId settings = "sarvam-translate:v1")
          && bool_decide (default "auto" (from settings) = "auto") then
    inl (Error "Sarvam 'sarvam-translate:v1' requires source language code.")
  else
    match convertToSarvamChatMessages JSONValue JSON_stringify toBase64 prompt None with
    | inl e => inl (Unsupported e)
    | inr messages =>
        inr (messages,
             mkArgs (String.concat ConvertMessages.newline (omap userContent messages))
                    (default "auto" (from settings))
                    (to settings)
                    (default "international" (numerals_format settings))
                    (default false (enable_preprocessing settings))
                    (output_script settings)
                    (default "Male" (speaker_gender settings))
                    (default "formal" (mode settings))
                    (modelId settings))
    end.

(** What a call can touch outside its own variables: the requests sent
    so far.  [postJsonToApi] appends one and obtains the vendor's answer. *)
Record World := mkWorld {
  sent : list HttpRequest;
}.

Definition IO (A : Type) : Type := World -> (Exception + A) * World.

Definition postJsonToApi (server : HttpRequest -> Exception + Response) (req : HttpRequest)
  : IO Response :=
  fun w => (server req, mkWorld (sent w ++ [req])).

Definition doGenerate (server : HttpRequest -> Exception + Response)
    (settings : SarvamTranslationSettings) (prompt : list (Turn JSONValue)) : IO Generated :=
  fun w =>
    match getArgs settings prompt with
    | inl e => (inl e, w)
    | inr (_, args) =>
        match postJsonToApi server (mkRequest "/translate" args) w with
        | (inl e, w') => (inl e, w')
        | (inr response, w') =>
            let text := translated_text response in
            (inr (mkGenerated (if Js.truthy text then [default "" text] else []) args), w')
        end
    end.

End Translation.

End TranslationModel.

(** ** Sample streams (from the provider's test-suite) *)

Module Samples.

Import MapFinishReason ChatModel.

Definition env : Env :=
  mkEnv "txt-0" "rsn-0" [WarnOther "Streaming is still experimental for Sarvam"]
        Json.recognise
        (fun c => mkResponseMetadata (chunk_id c) (model c) (created c)).

Definition textChunk (c : option string) (fr : option string) : ParseResult :=
  Success (ChunkData (mkChunk (Some "chatcmpl-e7f8") (Some 1702657020%Z) (Some "sarvam-m")
    [mkChoice (Some (mkDelta c None None)) fr 0] None)).

Definition reasoningChunk (r : string) : ParseResult :=
  Success (ChunkData (mkChunk (Some "chatcmpl-e7f8") (Some 1702657020%Z) (Some "sarvam-m")
    [mkChoice (Some (mkDelta None (Some r) None)) None 0] None)).

Definition usageChunk (fr : string) (p c : Z) : ParseResult :=
  Success (ChunkData (mkChunk (Some "chatcmpl-e7f8") (Some 1729171479%Z) (Some "sarvam-m")
    [mkChoice (Some (mkDelta None None None)) (Some fr) 0]
    (Some (mkXSarvam (Some (mkUsageTotals (Some p) (Some c))))))).

Definition toolChunk (ds : list ToolCallDelta) (fr : option string) : ParseResult :=
  Success (ChunkData (mkChunk (Some "chatcmpl-e7f8") (Some 1711357598%Z) (Some "sarvam-m")
    [mkChoice (Some (mkDelta None None (Some ds))) fr 0] None)).

(** first fragment of a tool call *)
Definition toolOpen (i : Z) (id name : string) (args : option string) : ToolCallDelta :=
  mkToolCallDelta i (Some id) (Some "function") (mkFunctionDelta (Some name) args).

(** later fragment of a tool call *)
Definition toolMore (i : Z) (args : string) : ToolCallDelta :=
  mkToolCallDelta i None None (mkFunctionDelta None (Some args)).

(** "should stream text deltas" *)
Definition textStream : list ParseResult :=
  [ textChunk (Some "") None; textChunk (Some "Hello") None; textChunk (Some ", ") None;
    textChunk (Some "World!") None; textChunk None (Some "stop"); usageChunk "stop" 18 439 ].

(** "should stream reasoning deltas" *)
Definition reasoningStream : list ParseResult :=
  [ textChunk (Some "") None; reasoningChunk "I think,"; reasoningChunk "therefore I am.";
    textChunk (Some "Hello") None; textChunk None (Some "stop"); usageChunk "stop" 18 439 ].

(** "should stream tool deltas" *)
Definition toolStream : list ParseResult :=
  [ toolChunk [toolOpen 0 "call_O17U" "test-tool" (Some "")] None;
    toolChunk [toolMore 0 (Js.dq "{'")] None; toolChunk [toolMore 0 "value"] None;
    toolChunk [toolMore 0 (Js.dq "':'")] None; toolChunk [toolMore 0 "Spark"] None;
    toolChunk [toolMore 0 "le"] None; toolChunk [toolMore 0 " Day"] None;
    toolChunk [toolMore 0 (Js.dq "'}")] None; usageChunk "tool_calls" 18 439 ].

(** "should not duplicate tool calls when there is an additional empty
    chunk after completion" *)
Definition trailingEmptyStream : list ParseResult :=
  [ textChunk (Some "") None;
    toolChunk [toolOpen 0 "chatcmpl-tool-b3b3" "searchGoogle" None] None;
    toolChunk [toolMore 0 (Js.dq "{'query': '")] None; toolChunk [toolMore 0 "latest"] None;
    toolChunk [toolMore 0 " news"] None; toolChunk [toolMore 0 " on"] None;
    toolChunk [toolMore 0 (Js.dq " ai'}")] None;
    toolChunk [toolMore 0 ""] (Some "tool_calls");
    Success (ChunkData (mkChunk (Some "chat-2267") (Some 1733162241%Z) (Some "llama") [] None)) ].

(** "should handle error stream parts" / "should handle unparsable stream parts" *)
Definition errorStream : list ParseResult := [ Success (ChunkError "invalid_request_error") ].
Definition unparsableStream : list ParseResult := [ Failure "{unparsable}" ].

(** a tool call whose arguments are parsable before the last fragment *)
Definition earlyParsableStream : list ParseResult :=
  [ toolChunk [toolOpen 0 "call_1" "add" (Some "1")] None;
    toolChunk [toolMore 0 "2"] (Some "tool_calls") ].

(** an unparsable fragment followed by a regular one *)
Definition errorThenTextStream : list ParseResult :=
  [ Failure "{unparsable}"; textChunk (Some "Hello") (Some "stop") ].

(** a regular fragment, an unparsable one, and a fragment without finish reason *)
Definition textThenErrorStream : list ParseResult :=
  [ textChunk (Some "Hel") (Some "stop"); Failure "{unparsable}"; textChunk (Some "lo") None ].

(** first fragments of a tool call that lack the type, the id or the name *)
Definition noType : ToolCallDelta :=
  mkToolCallDelta 0 (Some "call_1") None (mkFunctionDelta (Some "add") (Some "{}")).
Definition noId : ToolCallDelta :=
  mkToolCallDelta 0 None (Some "function") (mkFunctionDelta (Some "add") (Some "{}")).
Definition noName : ToolCallDelta :=
  mkToolCallDelta 0 (Some "call_1") (Some "function") (mkFunctionDelta None (Some "{}")).

(** what the translator enqueues for the sample streams *)
Definition toolStreamOut : list TaggedPart := enqueued (doStream env toolStream).
Definition textStreamOut : list TaggedPart := enqueued (doStream env textStream).

(** a chunk whose first choice carries the tool-call fragments [ds] *)
Definition toolValue (ds : list ToolCallDelta) : Chunk :=
  mkChunk (Some "chatcmpl-e7f8") (Some 1711357598%Z) (Some "sarvam-m")
          [mkChoice (Some (mkDelta None None (Some ds))) None 0] None.

(** a prompt with every kind of turn, for a converter whose JSON values
    are already strings *)
Definition prompt : list (ConvertMessages.Turn string) :=
  [ ConvertMessages.System "You are terse.";
    ConvertMessages.User [ConvertMessages.UserText "Hello"];
    ConvertMessages.User
      [ConvertMessages.UserText "What is this?";
       ConvertMessages.UserFile "image/png" (ConvertMessages.DataString "iVBORw0KGgo=")];
    ConvertMessages.Assistant
      [ConvertMessages.AssistantText "Let me ";
       ConvertMessages.AssistantToolCall "call_1" "lookup" "{}";
       ConvertMessages.AssistantText "check."];
    ConvertMessages.Tool
      [ConvertMessages.ToolResult "call_1" (ConvertMessages.OutText "a cat")] ].

Definition sameLanguage : TranslationModel.SarvamTranslationSettings :=
  TranslationModel.mkSettings None (Some "hi-IN") (Some "hi-IN") None None None None None.

Definition colloquial : TranslationModel.SarvamTranslationSettings :=
  TranslationModel.mkSettings (Some "sarvam-translate:v1") (Some "hi-IN") (Some "en-IN")
                              (Some "modern-colloquial") None None None None.

Definition noServer (r : TranslationModel.HttpRequest)
  : TranslationModel.Exception + TranslationModel.Response :=
  inl (TranslationModel.ApiCallError 503).

End Samples.

(** ** More of the stream contract of [doStream] *)

Module StreamMore.

Import MapFinishReason ChatModel StreamSpec StreamInv.

(** the finish reason a closed stream reports: that of the last fragment
    that sets one, "other" when none does *)
Definition lastFinishReason (chunks : list ParseResult) : FinishReason :=
  default (mkFinishReason Other None) (last (omap fragmentFinishReason chunks)).

Definition isFinish (p : StreamPart) : bool :=
  match p with
  | Finish _ _ => true
  | _ => false
  end.




(** the checks of the [toolCalls[index] == null] branch all pass *)
Definition validFirst (d : ToolCallDelta) : bool :=
  bool_decide (tcd_type d = Some "function")
  && bool_decide (is_Some (tcd_id d))
  && bool_decide (is_Some (fn_name (tcd_function d))).

(** The indices with an entry after the fragments [ds], starting from the
    indices [seen]; [None] when a fragment for a new index is invalid. *)
Fixpoint openAll (seen : gset Z) (ds : list ToolCallDelta) : option (gset Z) :=
  match ds with
  | [] => Some seen
  | d :: rest =>
      if decide (tcd_index d ∈ seen) then openAll seen rest
      else if validFirst d then openAll ({[tcd_index d]} ∪ seen) rest
      else None
  end.



(** the first fragment addressed to [toolCalls[i]] *)
Definition opener (i : Z) (ds : list ToolCallDelta) : option ToolCallDelta :=
  head (filter (fun d => tcd_index d = i) ds).

(** id and name of [toolCalls[i]]: those of its entry, or else those its
    first fragment among [ds] will give it *)
Definition identOf (tcs : gmap Z ToolCallState) (ds : list ToolCallDelta) (i : Z)
  : option (string * string) :=
  match tcs !! i with
  | Some tc => Some (tc_id tc, tc_name tc)
  | None =>
      d ← opener i ds;
      id ← tcd_id d;
      n ← fn_name (tcd_function d);
      Some (id, n)
  end.



End StreamMore.

(** ** More on chat/convert-messages and translation/model *)

Module ConvertMore.

Import ConvertMessages.

Section Offending.

Variable JSONValue : Type.

(** a file part whose media type is not an image *)
Definition nonImage (part : UserPart) : bool :=
  match part with
  | UserText _ => false
  | UserFile mediaType _ => negb (Js.startsWith "image/" mediaType)
  end.

(** some user turn holds such a part *)
Definition offending (prompt : list (Turn JSONValue)) : bool :=
  existsb (fun turn => match turn with
                       | User content => existsb nonImage content
                       | _ => false
                       end) prompt.

Definition isSystem (turn : Turn JSONValue) : bool :=
  match turn with
  | System _ => true
  | _ => false
  end.

Definition isUser (turn : Turn JSONValue) : bool :=
  match turn with
  | User _ => true
  | _ => false
  end.

(** what [Array.prototype.join] makes of the content of a user turn *)
Definition turnInput (turn : Turn JSONValue) : option string :=
  match turn with
  | User [UserText text] => Some text
  | User content => Some (String.concat "," (map (fun _ => "[object Object]") content))
  | _ => None
  end.

End Offending.

Definition unsupported : Exception :=
  UnsupportedFunctionalityError "Non-image file content parts in user messages".

End ConvertMore.

(** ** transliteration/model *)

Module TransliterateModel.

Import ConvertMessages.

(** [SarvamTransliterateSettings] is declared in transliteration/settings;
    these are the fields [getArgs] reads, each possibly [undefined]. *)
Record SarvamTransliterateSettings := mkSettings {
  from : option string;
  to : option string;
  numerals_format : option string;
  spoken_form : option bool;
  spoken_form_numerals_language : option string;
}.

(** the request body built by [getArgs]; the two spoken-form keys are
    spread in together or not at all *)
Record Args := mkArgs {
  input : string;
  source_language_code : string;
  target_language_code : option string;
  args_numerals_format : string;
  args_spoken_form : option (bool * string);
}.

Inductive Exception :=
| Error (message : string)
| Unsupported (e : ConvertMessages.Exception)
| ApiCallError (status : Z).

Record HttpRequest := mkRequest {
  path : string;
  body : Args;
}.

Record Response := mkResponse {
  transliterated_text : option string;
}.

Record Generated := mkGenerated {
  gen_text : list string;
  gen_request_body : Args;
}.

Record World := mkWorld {
  sent : list HttpRequest;
}.

(** the settings the guard of [getArgs] lets through *)
Definition accepted (settings : SarvamTransliterateSettings) : Prop :=
  from settings = Some "auto" \/ to settings = Some "en-IN" \/ from settings = Some "en-IN".

Section Transliterate.

Variable JSONValue : Type.
Variable JSON_stringify : JSONValue -> string.
Variable toBase64 : list Byte.byte -> string.

Definition getArgs (settings : SarvamTransliterateSettings) (prompt : list (Turn JSONValue))
  : Exception + (list SarvamMessage * Args) :=
  if negb (bool_decide (from settings = Some "auto"))
     && (negb (bool_decide (to settings = Some "en-IN"))
         && negb (bool_decide (from settings = Some "en-IN"))) then
    inl (Error "Sarvam doesn't support Indic-Indic Transliteration yet")
  else
    match convertToSarvamChatMessages JSONValue JSON_stringify toBase64 prompt None with
    | inl e => inl (Unsupported e)
    | inr messages =>
        inr (messages,
             mkArgs (String.concat ConvertMessages.newline
                       (omap TranslationModel.userContent messages))
                    (default "auto" (from settings))
                    (to settings)
                    (default "international" (numerals_format settings))
                    (match spoken_form settings with
                     | Some true =>
                         Some (true, default "english" (spoken_form_numerals_language settings))
                     | _ => None
                     end))
    end.

Definition postJsonToApi (server : HttpRequest -> Exception + Response) (req : HttpRequest)
    (w : World) : (Exception + Response) * World :=
  (server req, mkWorld (sent w ++ [req])).

Definition doGenerate (server : HttpRequest -> Exception + Response)
    (settings : SarvamTransliterateSettings) (prompt : list (Turn JSONValue)) (w : World)
  : (Exception + Generated) * World :=
  match getArgs settings prompt with
  | inl e => (inl e, w)
  | inr (_, args) =>
      match postJsonToApi server (mkRequest "/transliterate" args) w with
      | (inl e, w') => (inl e, w')
      | (inr response, w') =>
          let text := transliterated_text response in
          (inr (mkGenerated (if Js.truthy text then [default "" text] else []) args), w')
      end
  end.

End Transliterate.

End TransliterateModel.

(** ** speech/model : [getArgs] *)

Module SpeechModel.

(** the values of [SpeakerSchema] (speech/settings) *)
Definition speakers : list string :=
  [ "anushka"; "abhilash"; "manisha"; "vidya"; "arya"; "karun"; "hitesh"; "aditya";
    "ritu"; "priya"; "neha"; "rahul"; "pooja"; "rohan"; "simran"; "kavya"; "amit";
    "dev"; "ishita"; "shreya"; "ratan"; "varun"; "manan"; "sumit"; "roopa"; "kabir";
    "aayan"; "shubh"; "ashutosh"; "advait"; "amelia"; "sophia"; "anand"; "tanya";
    "tarun"; "sunny"; "mani"; "gokul"; "vijay"; "shruti"; "suhani"; "mohit"; "kavitha";
    "rehan"; "soham"; "rupali" ].

(** the formats [getArgs] passes on as [response_format] *)
Definition supportedFormats : list string :=
  [ "mp3"; "opus"; "aac"; "flac"; "wav"; "pcm" ].

Inductive Exception :=
| ZodError (received : string).

Inductive Warning :=
| Unsupported (feature details : string).

Section Speech.

(** JavaScript numbers, which [getArgs] only copies *)
Variable Num : Type.

(** [sarvamOptions] : what [parseProviderOptions] returned for the merged
    provider options, validated against [SarvamProviderOptionsSchema] *)
Record Options := mkOptions {
  speaker : option string;
  pitch : option Num;
  pace : option Num;
  loudness : option Num;
  speech_sample_rate : option Num;
  enable_preprocessing : option bool;
  output_audio_codec : option string;
  temperature : option Num;
}.

Inductive Value :=
| VString (s : string)
| VNumber (n : Num)
| VBool (b : bool).

(** [requestBody : Record<string, unknown>], keys in insertion order *)
Definition Body : Type := list (string * Value).

Definition field (key : string) (body : Body) : option Value :=
  snd <$> find (fun kv => String.eqb (fst kv) key) body.

(** [SpeakerSchema.parse(voice)] for a string *)
Definition parseSpeaker (voice : string) : Exception + string :=
  if bool_decide (voice ∈ speakers) then inr voice else inl (ZodError voice).

(** the closure [getSpeaker] *)
Definition getSpeaker (modelId : string) (sarvamOptions : option Options)
    (voice : option string) : Exception + string :=
  if Js.truthy (sarvamOptions ≫= speaker) then inr (default "" (sarvamOptions ≫= speaker))
  else if Js.truthy voice then parseSpeaker (default "" voice)
  else if String.eqb modelId "bulbul:v2" then inr "manisha"
  else if String.eqb modelId "bulbul:v3" then inr "anushka"
  else inr "anushka".

(** [requestBody[key] = value] when [value !== undefined] *)
Definition setIfDefined {A} (key : string) (inj : A -> Value) (value : option A) : Body :=
  match value with
  | Some v => [(key, inj v)]
  | None => []
  end.

(** the [for (const key of optionalKeys)] loop, unrolled in key order *)
Definition optionalFields (o : Options) : Body :=
  setIfDefined "pitch" VNumber (pitch o)
  ++ setIfDefined "pace" VNumber (pace o)
  ++ setIfDefined "loudness" VNumber (loudness o)
  ++ setIfDefined "speech_sample_rate" VNumber (speech_sample_rate o)
  ++ setIfDefined "enable_preprocessing" VBool (enable_preprocessing o)
  ++ setIfDefined "output_audio_codec" VString (output_audio_codec o)
  ++ setIfDefined "temperature" VNumber (temperature o).

Definition formatWarning (outputFormat : string) : Warning :=
  Unsupported "outputFormat"
    ("Unsupported output format: " +:+ outputFormat +:+ ". Using mp3 instead.").

(** [getArgs], after [parseProviderOptions] has returned [sarvamOptions];
    [outputFormat] defaults to "wav" when absent *)
Definition getArgs (modelId languageCode : string) (sarvamOptions : option Options)
    (text : string) (voice outputFormat : option string)
  : Exception + (Body * list Warning) :=
  let outputFormat := default "wav" outputFormat in
  match getSpeaker modelId sarvamOptions voice with
  | inl e => inl e
  | inr chosen =>
      let requestBody :=
        [ ("model", VString modelId); ("text", VString text);
          ("target_language_code", VString languageCode); ("speaker", VString chosen) ] in
      let (requestBody, warnings) :=
        if Js.nonEmpty outputFormat then
          if bool_decide (outputFormat ∈ supportedFormats)
          then (requestBody ++ [("response_format", VString outputFormat)], [])
          else (requestBody, [formatWarning outputFormat])
        else (requestBody, []) in
      let requestBody :=
        match sarvamOptions with
        | Some o => requestBody ++ optionalFields o
        | None => requestBody
        end in
      inr (requestBody, warnings)
  end.

(** the request body in three pieces: the four fixed keys, the format
    key, the keys of the options *)
Definition fixedFields (modelId languageCode text chosen : string) : Body :=
  [ ("model", VString modelId); ("text", VString text);
    ("target_language_code", VString languageCode); ("speaker", VString chosen) ].

Definition formatField (format : string) : Body :=
  if Js.nonEmpty format && bool_decide (format ∈ supportedFormats)
  then [("response_format", VString format)] else [].

Definition formatWarnings (format : string) : list Warning :=
  if Js.nonEmpty format && negb (bool_decide (format ∈ supportedFormats))
  then [formatWarning format] else [].

Definition optionFields (sarvamOptions : option Options) : Body :=
  match sarvamOptions with
  | Some o => optionalFields o
  | None => []
  end.

Definition fixedKeys : list string :=
  ["model"; "text"; "target_language_code"; "speaker"; "response_format"].

End Speech.

Global Arguments VString {Num}.
Global Arguments VBool {Num}.
Global Arguments VNumber {Num}.

End SpeechModel.

(** ** chat/model : the response mapping of [doGenerate] *)

Module ChatGenerate.

Import MapFinishReason ChatModel.

(** [settings.simulate] *)
Inductive Simulate :=
| ToolCalling    (* "tool-calling" *)
| JsonObject.    (* "json-object" *)

(** An entry of [message.tool_calls]; its [type] is always "function". *)
Record ResponseToolCall := mkResponseToolCall {
  rtc_id : option string;       (* [None] is null or undefined *)
  rtc_name : string;
  rtc_arguments : string;
}.

Record Message := mkMessage {
  content : option string;
  reasoning : option string;
  tool_calls : option (list ResponseToolCall);
}.

Record ResponseChoice := mkResponseChoice {
  message : Message;
  finish_reason : Js.nullish string;
}.

Record Response := mkResponse {
  choices : list ResponseChoice;
  usage : option UsageTotals;
}.

Inductive Exception :=
| TypeError.    (* reading [message] of [undefined] *)

Section Generate.

(** What [parseJSON] returns when the result is truthy, and what
    [extractToolCallData] returns when the result is truthy. *)
Variable JSONValue NewTool : Type.

(** [parseJSON] and [extractToolCallData] of chat/prepare-tools, [None]
    standing for a falsy result; [JSON.stringify]; the identifiers
    [generateId] hands out, by call number. *)
Variable parseJSON : string -> option JSONValue.
Variable extractToolCallData : JSONValue -> option NewTool.
Variable JSON_stringify : JSONValue -> string.
Variable generateId : nat -> string.

(** [LanguageModelV3Content], as far as [doGenerate] builds it *)
Inductive Content :=
| Reasoning (text : string)
| Text (text : string)
| ToolCall (toolCallId toolName input : string)
| SimulatedToolCall (newTool : NewTool).   (* [{ type: "tool-call", ...newTool }] *)

Record Generated := mkGenerated {
  gen_content : list Content;
  gen_finishReason : FinishReason;
  gen_usage : Usage;
  gen_warnings : list Warning;
}.

(** [choice.message.tool_calls?.map(...)]; the state is the number of
    identifiers generated so far *)
Fixpoint mapToolCalls (toolCalls : list ResponseToolCall) (calls : nat)
  : list Content * nat :=
  match toolCalls with
  | [] => ([], calls)
  | toolCall :: rest =>
      let (toolCallId, calls) :=
        match rtc_id toolCall with
        | Some id => (id, calls)
        | None => (generateId calls, S calls)
        end in
      let (mapped, calls) := mapToolCalls rest calls in
      (ToolCall toolCallId (rtc_name toolCall) (rtc_arguments toolCall) :: mapped, calls)
  end.

(** [text && text.length !== 0] *)
Definition hasText (text : option string) : bool :=
  Js.truthy text && negb (Nat.eqb (String.length (default "" text)) 0).

(** the block [if (this.settings.simulate === "tool-calling")] *)
Definition simulateToolCalling (simulate : option Simulate) (text : option string)
    (toolCalls : option (list Content)) : option string * option (list Content) :=
  match simulate with
  | Some ToolCalling =>
      if hasText text then
        match parseJSON (default "" text) with
        | Some jsonObject =>
            match extractToolCallData jsonObject with
            | Some newTool => (None, Some [SimulatedToolCall newTool])
            | None => (text, toolCalls)
            end
        | None => (text, toolCalls)
        end
      else (text, toolCalls)
  | _ => (text, toolCalls)
  end.

(** the block [if (this.settings.simulate === "json-object")] *)
Definition simulateJsonObject (simulate : option Simulate) (text : option string)
  : option string :=
  match simulate with
  | Some JsonObject =>
      if hasText text then
        match parseJSON (default "" text) with
        | Some jsonObject => Some (JSON_stringify jsonObject)
        | None => text
        end
      else text
  | _ => text
  end.

(** [doGenerate] from the parsed response on: [warnings] are those of
    [getArgs], [calls] the identifiers generated before the call. *)
Definition doGenerate (simulate : option Simulate) (warnings : list Warning)
    (response : Response) (calls : nat) : (Exception + Generated) * nat :=
  match choices response with
  | [] => (inl TypeError, calls)
  | choice :: _ =>
      let text := content (message choice) in
      let content :=
        if Js.truthy (reasoning (message choice))
        then [Reasoning (default "" (reasoning (message choice)))] else [] in
      let (toolCalls, calls) :=
        match tool_calls (message choice) with
        | Some toolCalls =>
            let (mapped, calls) := mapToolCalls toolCalls calls in (Some mapped, calls)
        | None => (None, calls)
        end in
      let (text, toolCalls) := simulateToolCalling simulate text toolCalls in
      let text := simulateJsonObject simulate text in
      let content :=
        if Js.truthy text then content ++ [Text (default "" text)] else content in
      let content :=
        match toolCalls with
        | Some toolCalls => content ++ toolCalls
        | None => content
        end in
      (inr (mkGenerated content
              (mapSarvamFinishReason (finish_reason choice))
              (mkUsage (usage response ≫= prompt_tokens) None None None
                       (usage response ≫= completion_tokens) None None)
              warnings),
       calls)
  end.

(** *** What the content is made of *)

Definition isToolCall (part : Content) : bool :=
  match part with
  | ToolCall _ _ _ | SimulatedToolCall _ => true
  | _ => false
  end.

(** what [if (choice.message.reasoning)] pushes *)
Definition reasoningPart (choice : ResponseChoice) : list Content :=
  if Js.truthy (reasoning (message choice))
  then [Reasoning (default "" (reasoning (message choice)))] else [].

(** the tool call a response entry stands for, its identifier apart *)
Definition sameCall (toolCall : ResponseToolCall) (part : Content) : Prop :=
  match part with
  | ToolCall id name input =>
      name = rtc_name toolCall /\ input = rtc_arguments toolCall
      /\ (forall given, rtc_id toolCall = Some given -> id = given)
  | _ => False
  end.

(** the tool [simulate: "tool-calling"] reads out of the text *)
Definition simulatedTool (simulate : option Simulate) (text : option string)
  : option NewTool :=
  match simulate with
  | Some ToolCalling =>
      if hasText text then parseJSON (default "" text) ≫= extractToolCallData else None
  | _ => None
  end.

End Generate.

Global Arguments Reasoning {NewTool}.
Global Arguments Text {NewTool}.
Global Arguments ToolCall {NewTool}.
Global Arguments SimulatedToolCall {NewTool}.

End ChatGenerate.

(** ** scripts/sync-models : [diff] *)

Module SyncModels.

(** [diff], returning the lines it logs *)
Definition diff (label : string) (sdk provider : list string) : list string :=
  let sdkSet : gset string := list_to_set sdk in
  let provSet : gset string := list_to_set provider in
  let missing := filter (fun v => v ∉ provSet) sdk in
  let extra := filter (fun v => v ∉ sdkSet) provider in
  if Nat.eqb (length missing) 0 && Nat.eqb (length extra) 0
  then ["  " +:+ label +:+ ": in sync"]
  else
    (if Nat.ltb 0 (length missing)
     then ["  " +:+ label +:+ " — missing from provider: " +:+ String.concat ", " missing]
     else [])
    ++ (if Nat.ltb 0 (length extra)
        then ["  " +:+ label +:+ " — extra in provider (not in SDK): "
                +:+ String.concat ", " extra]
        else []).

Definition inSync (label : string) : string := "  " +:+ label +:+ ": in sync".

End SyncModels.

(** ** Sample calls of the other models *)

Module Cases.

(** a prompt without a system turn *)
Definition userOnly : list (ConvertMessages.Turn string) :=
  [ ConvertMessages.User [ConvertMessages.UserText "Hello"];
    ConvertMessages.Assistant [ConvertMessages.AssistantText "Hi!"];
    ConvertMessages.User [ConvertMessages.UserText "Translate this."] ].

Definition toHindi : TranslationModel.SarvamTranslationSettings :=
  TranslationModel.mkSettings None None (Some "hi-IN") None None None None None.

Definition romanise : TransliterateModel.SarvamTransliterateSettings :=
  TransliterateModel.mkSettings (Some "hi-IN") (Some "en-IN") None (Some true) None.

Definition unavailable (r : TransliterateModel.HttpRequest)
  : TransliterateModel.Exception + TransliterateModel.Response :=
  inl (TransliterateModel.ApiCallError 503).

(** the request body of a speech call that asks for ogg audio *)
Definition oggBody : SpeechModel.Body Z :=
  [ ("model", SpeechModel.VString "bulbul:v2"); ("text", SpeechModel.VString "Hello");
    ("target_language_code", SpeechModel.VString "hi-IN");
    ("speaker", SpeechModel.VString "manisha") ].

(** a JSON reader that accepts what [Json.recognise] accepts, and a tool
    extractor that accepts every value *)
Definition readJson (text : string) : option string :=
  if Json.recognise text then Some text else None.

Definition anyTool (json : string) : option string := Some json.

Definition callId (n : nat) : string := "id-" +:+ String (ascii_of_nat (48 + n)) "".

(** a response whose text is a JSON object, beside a tool call *)
Definition jsonReply : ChatGenerate.Response :=
  ChatGenerate.mkResponse
    [ ChatGenerate.mkResponseChoice
        (ChatGenerate.mkMessage
           (Some (Js.dq "{'name':'weather','arguments':{}}"))
           (Some "The user wants the weather.")
           (Some [ChatGenerate.mkResponseToolCall (Some "call_1") "lookup" "{}"]))
        (Js.Val "stop") ]
    None.

(** a response with two tool calls, the second without identifier *)
Definition toolReply : ChatGenerate.Response :=
  ChatGenerate.mkResponse
    [ ChatGenerate.mkResponseChoice
        (ChatGenerate.mkMessage
           (Some "Looking it up.") None
           (Some [ChatGenerate.mkResponseToolCall (Some "call_1") "lookup" "{}";
                  ChatGenerate.mkResponseToolCall None "search" "{}"]))
        (Js.Val "tool_calls") ]
    (Some (ChatModel.mkUsageTotals (Some 18%Z) (Some 439%Z))).

End Cases.

(** * Facts about the stream contract *)

Section Monitor.

Import MapFinishReason ChatModel StreamSpec StreamInv.

Variable valid : string -> bool.

Lemma upd_same ph c q : upd ph c q c = q.
Proof. unfold upd. by rewrite decide_True. Qed.

Lemma upd_other ph c q c' : c' <> c -> upd ph c q c' = ph c'.
Proof. intros. unfold upd. by rewrite decide_False. Qed.

Lemma monitor_app ph a b :
  monitor valid ph a -> monitor valid (advance valid ph a) b -> monitor valid ph (a ++ b).
Proof.
  revert ph. induction a as [|[c p] a IH]; intros ph Ha Hb; simpl in *; [done|].
  destruct (next valid c (role c p) (ph c)); [|done]. by apply IH.
Qed.

Lemma monitor_app_inv ph a b :
  monitor valid ph (a ++ b) -> monitor valid ph a /\ monitor valid (advance valid ph a) b.
Proof.
  revert ph. induction a as [|[c p] a IH]; intros ph H; simpl in *; [done|].
  destruct (next valid c (role c p) (ph c)); [|done]. by apply IH.
Qed.

Lemma advance_app ph a b :
  monitor valid ph a ->
  advance valid ph (a ++ b) = advance valid (advance valid ph a) b.
Proof.
  revert ph. induction a as [|[c p] a IH]; intros ph H; simpl in *; [done|].
  destruct (next valid c (role c p) (ph c)); [|done]. by apply IH.
Qed.

(** parts on other channels leave a channel's phase alone *)
Lemma advance_other ph out c :
  (forall x, x ∈ out -> x.1 <> c) -> advance valid ph out c = ph c.
Proof.
  revert ph. induction out as [|[c' p] out IH]; intros ph H; simpl; [done|].
  destruct (next valid c' (role c' p) (ph c')); [|done].
  rewrite IH.
  - apply upd_other. intros ->. eapply (H (c', p)); [left|done].
  - intros x Hx. apply H. by right.
Qed.

Lemma append_empty_l s : "" +:+ s = s.
Proof. reflexivity. Qed.

Lemma append_empty_r s : s +:+ "" = s.
Proof.
  induction s as [|a s IH]; [reflexivity|].
  change (String a s +:+ "") with (String a (s +:+ "")). by f_equal.
Qed.

Lemma append_assoc (a b c : string) : (a +:+ b) +:+ c = a +:+ (b +:+ c).
Proof.
  induction a as [|x a IH]; [reflexivity|].
  change (String x ((a +:+ b) +:+ c) = String x (a +:+ (b +:+ c))). by f_equal.
Qed.

Lemma joined_app a b : joined (a ++ b) = joined a +:+ joined b.
Proof.
  induction a as [|x a IH]; simpl; [done|].
  unfold joined in *. simpl. by rewrite IH, append_assoc.
Qed.

Lemma role_control c p : role c p = RControl -> c = ChControl.
Proof. by destruct c, p. Qed.

Lemma role_delta c p d : role c p = RDelta d -> c <> ChControl.
Proof. by destruct c, p. Qed.

Lemma role_final c p input : role c p = RFinal input -> exists i, c = ChTool i.
Proof. destruct c, p; try done. by eexists. Qed.

(** *** Consequences of the contract for a monitored stream *)

Lemma monitor_start_before_delta p : forall ph c e d s,
  monitor valid ph (p ++ (c, e) :: s) -> role c e = RDelta d -> ph c = Unseen ->
  exists e0, (c, e0) ∈ p /\ role c e0 = RStart.
Proof.
  induction p as [|[c0 e0] p IH]; intros ph c e d s H Hr Hu; simpl in H.
  { by rewrite Hr, Hu in H. }
  destruct (next valid c0 (role c0 e0) (ph c0)) as [q|] eqn:Hn; [|done].
  destruct (decide (c0 = c)) as [->|Hc].
  - rewrite Hu in Hn. destruct (role c e0) eqn:Hr0; simpl in Hn; try done.
    + exists e0. split; [left|done].
    + apply role_control in Hr0. by apply role_delta in Hr.
  - destruct (IH _ _ _ _ _ H Hr) as (e1 & He1 & Hr1).
    { by rewrite upd_other. }
    exists e1. split; [by right|done].
Qed.

Lemma seen_stays out : forall ph c,
  ph c <> Unseen -> monitor valid ph out -> advance valid ph out c <> Unseen.
Proof.
  induction out as [|[c0 e0] out IH]; intros ph c Hs H; simpl in *; [done|].
  destruct (next valid c0 (role c0 e0) (ph c0)) as [q|] eqn:Hn; [|done].
  apply IH; [|done]. unfold upd. case_decide as Hc; [|done]. subst c0.
  destruct (role c e0), (ph c); simpl in Hn; try done; try by inversion Hn.
  - destruct c; by inversion Hn.
  - by destruct (_ && _); inversion Hn.
Qed.

Lemma monitor_single_start p : forall ph c e1 q e2 s,
  monitor valid ph (p ++ (c, e1) :: q ++ (c, e2) :: s) ->
  role c e1 = RStart -> role c e2 = RStart -> False.
Proof.
  intros ph c e1 q e2 s H H1 H2.
  apply monitor_app_inv in H as [_ H]. simpl in H. rewrite H1 in H.
  destruct (advance valid ph p c) eqn:Hp; simpl in H; try done.
  apply monitor_app_inv in H as [Hq H]. simpl in H. rewrite H2 in H.
  pose proof (seen_stays q (upd (advance valid ph p) c (Open "")) c) as Hs.
  rewrite upd_same in Hs. specialize (Hs ltac:(done) Hq).
  destruct (advance valid _ q c); simpl in H; done.
Qed.

Lemma done_stays out : forall ph c,
  ph c = Done -> monitor valid ph out ->
  advance valid ph out c = Done /\ (c <> ChControl -> forall x, x ∈ out -> x.1 <> c).
Proof.
  induction out as [|[c0 e0] out IH]; intros ph c Hd H; simpl in *.
  { split; [done|]. intros _ x Hx. inversion Hx. }
  destruct (next valid c0 (role c0 e0) (ph c0)) as [q|] eqn:Hn; [|done].
  destruct (decide (c0 = c)) as [->|Hc].
  - rewrite Hd in Hn. destruct (role c e0) eqn:Hr; simpl in Hn; try done.
    inversion Hn; subst q. apply role_control in Hr.
    destruct (IH (upd ph c Done) c) as [Ha Hb]; [by rewrite upd_same|done|].
    split; [done|]. intros Hcc. done.
  - destruct (IH (upd ph c0 q) c) as [Ha Hb]; [by rewrite upd_other|done|].
    split; [done|]. intros Hcc x [->|Hx]%elem_of_cons; [by simpl; congruence|by apply Hb].
Qed.

Lemma acc_tracks out : forall ph c a a',
  monitor valid ph out -> startAcc (ph c) = Some a ->
  accOf (advance valid ph out c) = Some a' ->
  a' = a +:+ joined (deltasOn c out).
Proof.
  induction out as [|[c0 e0] out IH]; intros ph c a a' H Hs Ha; simpl in *.
  { rewrite append_empty_r. destruct (ph c); simpl in *; congruence. }
  destruct (next valid c0 (role c0 e0) (ph c0)) as [q|] eqn:Hn; [|done].
  unfold deltasOn. simpl. unfold deltaOn at 1. simpl.
  destruct (decide (c0 = c)) as [->|Hc].
  - destruct (role c e0) eqn:Hr, (ph c) eqn:Hp; simpl in Hn, Hs; try done;
      injection Hs as <-; simpl.
    + injection Hn as <-. eapply IH; [done| by rewrite upd_same |done].
    + injection Hn as <-. unfold joined. simpl. rewrite <- append_assoc.
      eapply IH; [done| by rewrite upd_same |done].
    + injection Hn as <-.
      destruct c; try (eapply IH; [done| by rewrite upd_same |done]).
      all: destruct (done_stays out (upd ph _ Done) _ ltac:(by rewrite upd_same) H) as [Hd _];
        by rewrite Hd in Ha.
    + destruct (_ && _); [|done]. injection Hn as <-.
      destruct (done_stays out (upd ph _ Done) _ ltac:(by rewrite upd_same) H) as [Hd _];
        by rewrite Hd in Ha.
    + injection Hn as <-. eapply IH; [done| by rewrite upd_same |done].
    + injection Hn as <-. eapply IH; [done| by rewrite upd_same |done].
    + injection Hn as <-. eapply IH; [done| by rewrite upd_same |done].
  - eapply IH; [done| by rewrite upd_other |done].
Qed.

Lemma monitor_tool_call p : forall ph c e input s,
  monitor valid ph (p ++ (c, e) :: s) -> role c e = RFinal input ->
  valid input = true
  /\ (forall x, x ∈ s -> x.1 <> c)
  /\ (ph c = Unseen -> input = joined (deltasOn c p)).
Proof.
  intros ph c e input s H Hr.
  apply monitor_app_inv in H as [Hp H]. simpl in H. rewrite Hr in H.
  destruct (advance valid ph p c) eqn:Ha; simpl in H; try done.
  destruct (bool_decide (input = acc)) eqn:Hb; simpl in H; [|done].
  apply bool_decide_eq_true in Hb. subst acc.
  destruct (valid input) eqn:Hv; [|done].
  destruct (role_final _ _ _ Hr) as [i ->].
  split; [done|]. split.
  - eapply done_stays; [|done|done]. by rewrite upd_same.
  - intros Hu. rewrite (acc_tracks p ph (ChTool i) "" input); try done.
    + by rewrite Hu.
    + by rewrite Ha.
Qed.

(** *** Tool-call parts directly follow their tool-input-end *)

Lemma paired_app_le n : forall a b,
  length a <= n -> paired a -> paired b -> paired (a ++ b).
Proof.
  induction n as [|n IH]; intros a b Hl Ha Hb.
  { destruct a; [done|simpl in Hl; lia]. }
  destruct a as [|[c e] a]; [done|]. simpl in Hl.
  destruct e; simpl in *; try (apply IH; [lia|done|done]); try done.
  destruct a as [|[c' e'] a]; [done|]. destruct e'; try done.
  destruct Ha as (-> & -> & Ha). simpl. repeat split. apply IH; [simpl in Hl; lia|done|done].
Qed.

Lemma paired_app a b : paired a -> paired b -> paired (a ++ b).
Proof. by apply (paired_app_le (length a)). Qed.

Lemma paired_split_le n : forall p c id name input s,
  length p <= n -> paired (p ++ (c, ToolCall id name input) :: s) ->
  exists p', p = p' ++ [(c, ToolInputEnd id)].
Proof.
  induction n as [|n IH]; intros p c id name input s Hl H.
  { destruct p; [done|simpl in Hl; lia]. }
  destruct p as [|[c0 e0] p]; [done|]. simpl in Hl.
  assert (Hrec : paired (p ++ (c, ToolCall id name input) :: s) ->
                 exists p', (c0, e0) :: p = p' ++ [(c, ToolInputEnd id)]).
  { intros H'. destruct (IH p c id name input s ltac:(lia) H') as [p' ->].
    by exists ((c0, e0) :: p'). }
  destruct e0; simpl in H; try (by apply Hrec); try done.
  destruct p as [|[c1 e1] p]; simpl in H.
  - destruct H as (-> & -> & _). by exists [].
  - destruct e1; try done. destruct H as (-> & -> & H).
    destruct (IH p c id name input s ltac:(simpl in Hl; lia) H) as [p' ->].
    by exists ((c1, ToolInputEnd toolCallId) :: (c1, ToolCall toolCallId toolName input0) :: p').
Qed.

Lemma paired_split p c id name input s :
  paired (p ++ (c, ToolCall id name input) :: s) ->
  exists p', p = p' ++ [(c, ToolInputEnd id)].
Proof. by apply (paired_split_le (length p)). Qed.

End Monitor.

(** * The translator meets the contract *)

Section Tools.

Import MapFinishReason ChatModel StreamSpec StreamInv.

Variable env : Env.
Abbreviation valid := (isParsableJson env).

Lemma nonEmpty_false s : Js.nonEmpty s = false -> s = "".
Proof. by destruct s. Qed.

Lemma tracksTools_insert tcs ph i tc q :
  tracksTools tcs ph -> q = toolPhase (Some tc) ->
  tracksTools (<[i := tc]> tcs) (upd ph (ChTool i) q).
Proof.
  intros H -> j. destruct (decide (j = i)) as [->|Hn].
  - by rewrite upd_same, lookup_insert_eq.
  - rewrite upd_other by congruence. rewrite lookup_insert_ne by done. apply H.
Qed.

Ltac on_channel :=
  let x := fresh "x" in let Hx := fresh "Hx" in
  intros x Hx; repeat (apply elem_of_cons in Hx as [->|Hx]; [done|]); by inversion Hx.

Ltac tools_tracked Hph :=
  let j := fresh "j" in
  intros ? [= <-]; intros j;
  match goal with
  | |- context [ <[?i := _]> _ ] =>
      destruct (decide (j = i)) as [->|?];
      [ rewrite ?upd_same, lookup_insert_eq; simpl; try done
      | rewrite !upd_other by congruence; rewrite lookup_insert_ne by done; apply Hph ]
  end.

Lemma toolCallStep_contract tcs ph d out r :
  tracksTools tcs ph ->
  toolCallStep env tcs d = (out, r) ->
  monitor valid ph out /\ paired out /\ onChannel (ChTool (tcd_index d)) out
  /\ forall tcs', r = Normal tcs' -> tracksTools tcs' (advance valid ph out).
Proof.
  intros Hph. unfold toolCallStep.
  pose proof (Hph (tcd_index d)) as Hi.
  destruct (tcs !! tcd_index d) as [tc|] eqn:Hl; simpl in Hi.
  - destruct (tc_hasFinished tc) eqn:Hf.
    { intros [= <- <-]. repeat split; try done; [on_channel | by intros ? [= <-]]. }
    set (tc' := match fn_arguments (tcd_function d) with Some a => _ | None => tc end).
    assert (Hacc : tc_arguments tc' = tc_arguments tc +:+ default "" (fn_arguments (tcd_function d))).
    { subst tc'. destruct (fn_arguments (tcd_function d)); simpl; [done|]. by rewrite append_empty_r. }
    assert (Hfin : tc_hasFinished tc' = false).
    { subst tc'. by destruct (fn_arguments (tcd_function d)). }
    destruct (valid (tc_arguments tc')) eqn:Hv; intros [= <- <-]; simpl;
      rewrite Hi; simpl; rewrite ?upd_same; simpl; rewrite <- ?Hacc, ?Hv, ?upd_same; simpl;
      rewrite ?bool_decide_true by done; simpl;
      (repeat split; try done; [on_channel | tools_tracked Hph]).
    by rewrite Hfin.
  - destruct (bool_decide (tcd_type d = Some "function")); simpl;
      [|intros [= <- <-]; repeat split; try done; on_channel].
    destruct (tcd_id d) as [id|];
      [|intros [= <- <-]; repeat split; try done; on_channel].
    destruct (fn_name (tcd_function d)) as [name|];
      [|intros [= <- <-]; repeat split; try done; on_channel].
    set (args := default "" (fn_arguments (tcd_function d))).
    destruct (Js.nonEmpty args) eqn:Hne; [|apply nonEmpty_false in Hne; rewrite Hne in *];
      (destruct (valid _) eqn:Hv);
      intros [= <- <-]; simpl; rewrite Hi; simpl; rewrite ?upd_same; simpl;
      rewrite ?append_empty_l, ?upd_same; simpl; rewrite ?upd_same; simpl;
      rewrite ?bool_decide_true by done; simpl; rewrite ?Hv;
      (repeat split; try done; [on_channel | tools_tracked Hph]).
Qed.

Lemma toolCallLoop_contract ds : forall tcs ph out r,
  tracksTools tcs ph ->
  toolCallLoop env tcs ds = (out, r) ->
  monitor valid ph out /\ paired out
  /\ (forall x, x ∈ out -> exists i, x.1 = ChTool i)
  /\ forall tcs', r = Normal tcs' -> tracksTools tcs' (advance valid ph out).
Proof.
  induction ds as [|d ds IH]; intros tcs ph out r Hph; simpl.
  { intros [= <- <-]. repeat split; try done; [by intros x Hx; inversion Hx | by intros ? [= <-]]. }
  destruct (toolCallStep env tcs d) as [o1 [tcs1|e]] eqn:Hs;
    destruct (toolCallStep_contract _ _ _ _ _ Hph Hs) as (Hm & Hp & Hc & Ht).
  - destruct (toolCallLoop env tcs1 ds) as [o2 r2] eqn:Hl. intros [= <- <-].
    destruct (IH _ _ _ _ (Ht _ eq_refl) Hl) as (Hm2 & Hp2 & Hc2 & Ht2).
    repeat split.
    + by apply monitor_app.
    + by apply paired_app.
    + intros x [Hx|Hx]%elem_of_app; [exists (tcd_index d); by apply Hc | by apply Hc2].
    + intros tcs' ->. rewrite advance_app by done. by apply Ht2.
  - intros [= <- <-]. repeat split; try done.
    intros x Hx. exists (tcd_index d). by apply Hc.
Qed.

Lemma noEnd_app a b : noEnd a -> noEnd b -> noEnd (a ++ b).
Proof. intros Ha Hb x [?|?]%elem_of_app; auto. Qed.

Lemma monitor_roles out : forall ph x,
  monitor valid ph out -> x ∈ out -> role x.1 x.2 <> RBad.
Proof.
  induction out as [|[c e] out IH]; intros ph x H Hx; [by inversion Hx|].
  simpl in H. destruct (next valid c (role c e) (ph c)) as [q|] eqn:Hn; [|done].
  apply elem_of_cons in Hx as [->|Hx]; [|by eapply IH].
  simpl. intros Hr. by rewrite Hr in Hn.
Qed.

Lemma toolCallLoop_noEnd tcs ph ds out r :
  tracksTools tcs ph -> toolCallLoop env tcs ds = (out, r) -> noEnd out.
Proof.
  intros Hph Hl. destruct (toolCallLoop_contract _ _ _ _ _ Hph Hl) as (Hm & _ & Hc & _).
  intros [c e] Hx. destruct (Hc _ Hx) as [i Hi]. simpl in Hi. subst c.
  pose proof (monitor_roles _ _ _ Hm Hx) as Hr. simpl in *. by destruct e.
Qed.

(** the pieces of [transform] *)

Ltac piece_goal Hc :=
  first
    [ done
    | on_channel
    | by (simpl; rewrite ?upd_same; eexists)
    | by (intros ?; simpl; rewrite ?upd_other by done; apply Hc) ].

Lemma openStream_contract v st ph out st' :
  tracks st ph -> openStream env v st = (out, st') ->
  monitor valid ph out /\ paired out /\ noEnd out /\ tracks st' (advance valid ph out).
Proof.
  intros (Ht & Hr & Hc). unfold openStream. destruct (isFirstChunk st); intros [= <- <-];
    simpl; repeat split; piece_goal Hc.
Qed.

Lemma emitReasoning_contract d st ph out st' :
  tracks st ph -> emitReasoning env d st = (out, st') ->
  monitor valid ph out /\ paired out /\ noEnd out /\ tracks st' (advance valid ph out).
Proof.
  intros (Ht & Hr & Hc). unfold emitReasoning.
  destruct (reasoning d) as [r|]; [destruct (Js.nonEmpty r)|]; intros [= <- <-];
    try (repeat split; piece_goal Hc).
  unfold flagPhase in Hr. destruct (reasoningStarted st).
  - destruct Hr as [acc Hr]. simpl. rewrite Hr. simpl. repeat split; piece_goal Hc.
  - simpl. rewrite Hr. simpl. rewrite ?upd_same. simpl. repeat split; piece_goal Hc.
Qed.

Lemma emitText_contract d st ph out st' :
  tracks st ph -> emitText env d st = (out, st') ->
  monitor valid ph out /\ paired out /\ noEnd out /\ tracks st' (advance valid ph out).
Proof.
  intros (Ht & Hr & Hc). unfold emitText.
  destruct (content d) as [r|]; [destruct (Js.nonEmpty r)|]; intros [= <- <-];
    try (repeat split; piece_goal Hc).
  unfold flagPhase in Ht. destruct (textStarted st).
  - destruct Ht as [acc Ht]. simpl. rewrite Ht. simpl. repeat split; piece_goal Hc.
  - simpl. rewrite Ht. simpl. rewrite ?upd_same. simpl. repeat split; piece_goal Hc.
Qed.

Lemma emitToolCalls_contract d st ph out r :
  tracks st ph -> emitToolCalls env d st = (out, r) ->
  monitor valid ph out /\ paired out /\ noEnd out
  /\ forall st', r = Normal st' -> tracks st' (advance valid ph out).
Proof.
  intros (Ht & Hr & Hc). unfold emitToolCalls. destruct (tool_calls d) as [ds|].
  - destruct (toolCallLoop env (toolCalls st) ds) as [o r'] eqn:Hl.
    destruct (toolCallLoop_contract _ _ _ _ _ Hc Hl) as (Hm & Hp & Hch & Htr).
    pose proof (toolCallLoop_noEnd _ _ _ _ _ Hc Hl) as Hne.
    assert (Hother : forall c, (forall i, c <> ChTool i) -> advance valid ph o c = ph c).
    { intros c Hn. apply advance_other. intros x Hx Hxc. destruct (Hch _ Hx) as [i Hi].
      apply (Hn i). congruence. }
    destruct r'; intros [= <- <-]; (split; [done|split; [done|split; [done|]]]);
      intros st' [= <-].
    split; [|split]; simpl.
    + by rewrite (Hother ChText).
    + by rewrite (Hother ChReasoning).
    + by apply Htr.
  - intros [= <- <-]. split; [done|split; [done|split; [by intros x Hx; inversion Hx|]]].
    by intros ? [= <-].
Qed.

Lemma transform_contract st ph chunk out r :
  tracks st ph -> transform env st chunk = (out, r) ->
  monitor valid ph out /\ paired out /\ noEnd out
  /\ forall st', r = Normal st' -> tracks st' (advance valid ph out).
Proof.
  intros Htr. unfold transform.
  assert (Herr : forall err,
    ([(ChControl, PError err)], Normal (setFinishReason st errorFinishReason)) = (out, r) ->
    monitor valid ph out /\ paired out /\ noEnd out
    /\ forall st', r = Normal st' -> tracks st' (advance valid ph out)).
  { intros err [= <- <-]. split; [done|split; [done|split; [on_channel|]]].
    intros st' [= <-]. destruct Htr as (Ht & Hr & Hc). repeat split; piece_goal Hc. }
  destruct chunk as [[v|err]|err]; [|by apply Herr..].
  destruct (openStream env v st) as [o1 st1] eqn:H1.
  destruct (openStream_contract _ _ _ _ _ Htr H1) as (Hm1 & Hp1 & Hn1 & Ht1).
  assert (Ht3 : tracks (trackFinishReason v (trackUsage v st1)) (advance valid ph o1)).
  { unfold trackFinishReason, trackUsage.
    destruct (firstChoice v ≫= finish_reason), (chunkUsage v); apply Ht1. }
  destruct (firstChoice v ≫= delta) as [d|].
  2:{ intros [= <- <-]. split; [done|split; [done|split; [done|]]]. by intros st' [= <-]. }
  destruct (emitReasoning env d _) as [o4 st4] eqn:H4.
  destruct (emitReasoning_contract _ _ _ _ _ Ht3 H4) as (Hm4 & Hp4 & Hn4 & Ht4).
  destruct (emitText env d st4) as [o5 st5] eqn:H5.
  destruct (emitText_contract _ _ _ _ _ Ht4 H5) as (Hm5 & Hp5 & Hn5 & Ht5).
  destruct (emitToolCalls env d st5) as [o6 r6] eqn:H6.
  destruct (emitToolCalls_contract _ _ _ _ _ Ht5 H6) as (Hm6 & Hp6 & Hn6 & Ht6).
  intros [= <- <-].
  assert (Hm : monitor valid ph (o1 ++ o4 ++ o5 ++ o6)).
  { apply monitor_app; [done|]. apply monitor_app; [done|]. by apply monitor_app. }
  split; [done|]. split; [by repeat apply paired_app|].
  split; [by repeat apply noEnd_app|].
  intros st' ->. rewrite !advance_app by done. by apply Ht6.
Qed.

Lemma transformAll_contract chunks : forall st ph out r,
  tracks st ph -> transformAll env st chunks = (out, r) ->
  monitor valid ph out /\ paired out /\ noEnd out
  /\ forall st', r = Normal st' -> tracks st' (advance valid ph out).
Proof.
  induction chunks as [|c chunks IH]; intros st ph out r Htr; simpl.
  { intros [= <- <-]. split; [done|split; [done|split; [by intros x Hx; inversion Hx|]]].
    by intros st' [= <-]. }
  destruct (transform env st c) as [o1 [st1|e]] eqn:H1;
    destruct (transform_contract _ _ _ _ _ Htr H1) as (Hm1 & Hp1 & Hn1 & Ht1).
  - destruct (transformAll env st1 chunks) as [o2 r2] eqn:H2. intros [= <- <-].
    destruct (IH _ _ _ _ (Ht1 _ eq_refl) H2) as (Hm2 & Hp2 & Hn2 & Ht2).
    split; [by apply monitor_app|]. split; [by apply paired_app|].
    split; [by apply noEnd_app|].
    intros st' ->. rewrite advance_app by done. by apply Ht2.
  - by intros [= <- <-].
Qed.

Lemma flush_contract st ph :
  tracks st ph -> monitor valid ph (flush env st) /\ paired (flush env st).
Proof.
  intros (Ht & Hr & _). unfold flush, flagPhase in *.
  destruct (reasoningStarted st), (textStarted st); simpl;
    repeat match goal with H : exists _, _ |- _ => destruct H as [? H] end;
    rewrite ?Hr; simpl; (rewrite ?upd_other by done); rewrite ?Ht; simpl; done.
Qed.

Lemma tracks_initial : tracks initialState fresh.
Proof. by repeat split. Qed.

Lemma doStream_contract chunks :
  monitor valid fresh (enqueued (doStream env chunks))
  /\ paired (enqueued (doStream env chunks)).
Proof.
  unfold doStream, pump.
  destruct (transformAll env initialState chunks) as [out [st|e]] eqn:H;
    destruct (transformAll_contract _ _ _ _ _ tracks_initial H) as (Hm & Hp & Hn & Ht); simpl.
  - destruct (flush_contract _ _ (Ht _ eq_refl)) as [Hf Hpf].
    split; [by apply monitor_app | by apply paired_app].
  - done.
Qed.

End Tools.

(** * What a run of [transform] calls amounts to *)

Section Summary.

Import MapFinishReason ChatModel StreamSpec StreamInv.

Variable env : Env.
Abbreviation valid := (isParsableJson env).

Lemma has_app p a b : has p (a ++ b) = has p a || has p b.
Proof.
  unfold has. rewrite fmap_app, <- bool_decide_or.
  apply bool_decide_ext, elem_of_app.
Qed.

Lemma deltasOn_app c a b : deltasOn c (a ++ b) = deltasOn c a ++ deltasOn c b.
Proof. apply omap_app. Qed.

Lemma deltasOn_other c out :
  (forall x, x ∈ out -> x.1 <> c) -> deltasOn c out = [].
Proof.
  induction out as [|x out IH]; intros H; [done|]. unfold deltasOn in *. simpl.
  unfold deltaOn at 1. rewrite decide_False by (apply H, elem_of_cons; by left).
  apply IH. intros y Hy. apply H, elem_of_cons. by right.
Qed.

Lemma summary_nil st : summary env st [] st [] [].
Proof. repeat split; simpl; by rewrite ?orb_false_r. Qed.

Lemma summary_app st a st1 t1 r1 b st2 t2 r2 :
  summary env st a st1 t1 r1 -> summary env st1 b st2 t2 r2 ->
  summary env st (a ++ b) st2 (t1 ++ t2) (r1 ++ r2).
Proof.
  intros (A1 & A2 & A3 & A4 & A5 & A6 & A7 & A8) (B1 & B2 & B3 & B4 & B5 & B6 & B7 & B8).
  repeat split; rewrite ?has_app, ?deltasOn_app; try congruence.
  - by rewrite B1, A1, orb_assoc.
  - by rewrite B2, A2, orb_assoc.
  - intros i. by rewrite deltasOn_app, A5, B5.
Qed.

Lemma openStream_summary v st out st' :
  openStream env v st = (out, st') -> summary env st out st' [] [].
Proof.
  unfold openStream. destruct (isFirstChunk st); intros [= <- <-]; repeat split;
    simpl; by rewrite ?orb_false_r.
Qed.

Lemma emitReasoning_summary d st out st' :
  emitReasoning env d st = (out, st') ->
  summary env st out st' [] (optionList (nonEmptyOnly (reasoning d))).
Proof.
  unfold emitReasoning, nonEmptyOnly.
  destruct (reasoning d) as [r|]; simpl; [destruct (Js.nonEmpty r)|]; intros [= <- <-];
    try apply summary_nil.
  destruct (reasoningStarted st) eqn:Hs; repeat split; simpl; rewrite ?Hs, ?orb_false_r; try done.
  unfold has. simpl. by rewrite bool_decide_true by set_solver.
Qed.

Lemma emitText_summary d st out st' :
  emitText env d st = (out, st') ->
  summary env st out st' (optionList (nonEmptyOnly (content d))) [].
Proof.
  unfold emitText, nonEmptyOnly.
  destruct (content d) as [r|]; simpl; [destruct (Js.nonEmpty r)|]; intros [= <- <-];
    try apply summary_nil.
  destruct (textStarted st) eqn:Hs; repeat split; simpl; rewrite ?Hs, ?orb_false_r; try done.
  unfold has. simpl. by rewrite bool_decide_true by set_solver.
Qed.

Lemma trackUsage_usage v st :
  usage (trackUsage v st) = default (usage st) (fragmentUsage (Success (ChunkData v))).
Proof. unfold trackUsage. simpl. by destruct (chunkUsage v). Qed.

Lemma trackFinishReason_reason v st :
  finishReason (trackFinishReason v st)
  = default (finishReason st) (fragmentFinishReason (Success (ChunkData v))).
Proof. unfold trackFinishReason. simpl. by destruct (firstChoice v ≫= finish_reason). Qed.

(** *** The tool-call loop *)

Lemma expected_step tcs d out tcs' i rest :
  toolCallStep env tcs d = (out, Normal tcs') ->
  deltasOn (ChTool i) out ++ expected valid (tcs' !! i) rest
  = expected valid (tcs !! i) (argsFor i [d] ++ rest).
Proof.
  intros Hs.
  destruct (decide (tcd_index d = i)) as [<-|Hi].
  2:{ assert (Hph : tracksTools tcs (toolPhases tcs)) by done.
      destruct (toolCallStep_contract env _ _ _ _ _ Hph Hs) as (_ & _ & Hc & _).
      rewrite deltasOn_other by (intros x Hx; rewrite (Hc x Hx); congruence).
      unfold argsFor. simpl. rewrite decide_False by done. simpl.
      f_equal. revert Hs. unfold toolCallStep.
      repeat case_match; intros [= <- <-]; try done; by rewrite lookup_insert_ne. }
  unfold argsFor. simpl. rewrite decide_True by done. simpl.
  revert Hs. unfold toolCallStep.
  destruct (tcs !! tcd_index d) as [tc|] eqn:Hl.
  - destruct (tc_hasFinished tc) eqn:Hf.
    { intros [= <- <-]. rewrite Hl. simpl. by rewrite Hf. }
    set (tc' := match fn_arguments (tcd_function d) with Some a => _ | None => tc end).
    assert (Hacc : tc_arguments tc' = tc_arguments tc +:+ default "" (fn_arguments (tcd_function d))).
    { subst tc'. destruct (fn_arguments (tcd_function d)); simpl; [done|]. by rewrite append_empty_r. }
    assert (Hfin : tc_hasFinished tc' = false).
    { subst tc'. by destruct (fn_arguments (tcd_function d)). }
    destruct (valid (tc_arguments tc')) eqn:Hv; intros [= <- <-];
      rewrite lookup_insert_eq; simpl; rewrite Hf, <- Hacc, Hv; simpl;
      unfold deltasOn; simpl; unfold deltaOn; simpl; rewrite !decide_True by done; simpl;
      rewrite ?Hfin; done.
  - destruct (bool_decide (tcd_type d = Some "function")); simpl; [|done].
    destruct (tcd_id d) as [id|]; [|done].
    destruct (fn_name (tcd_function d)) as [name|]; [|done].
    set (args := default "" (fn_arguments (tcd_function d))).
    destruct (Js.nonEmpty args) eqn:Hne; destruct (valid args) eqn:Hv;
      intros [= <- <-]; rewrite lookup_insert_eq; simpl;
      rewrite ?append_empty_l, ?Hv, ?Hne; simpl;
      unfold deltasOn; simpl; unfold deltaOn; simpl; rewrite ?decide_True by done; simpl;
      done.
Qed.

Lemma argsFor_app i a b : argsFor i (a ++ b) = argsFor i a ++ argsFor i b.
Proof. apply omap_app. Qed.

Lemma expected_loop ds : forall tcs out tcs' i rest,
  toolCallLoop env tcs ds = (out, Normal tcs') ->
  deltasOn (ChTool i) out ++ expected valid (tcs' !! i) rest
  = expected valid (tcs !! i) (argsFor i ds ++ rest).
Proof.
  induction ds as [|d ds IH]; intros tcs out tcs' i rest Hl; simpl in Hl.
  { by injection Hl as <- <-. }
  destruct (toolCallStep env tcs d) as [o1 [tcs1|e]] eqn:Hs; [|done].
  destruct (toolCallLoop env tcs1 ds) as [o2 r2] eqn:Hl2. injection Hl as <- ->.
  rewrite deltasOn_app, <- app_assoc, (IH _ _ _ _ _ Hl2).
  change (d :: ds) with ([d] ++ ds). rewrite argsFor_app, <- app_assoc.
  by apply expected_step.
Qed.

Lemma toolCallLoop_quiet tcs ds out r c :
  toolCallLoop env tcs ds = (out, r) -> (forall i, c <> ChTool i) ->
  forall x, x ∈ out -> x.1 <> c.
Proof.
  intros Hl Hc x Hx.
  assert (Hph : tracksTools tcs (toolPhases tcs)) by done.
  destruct (toolCallLoop_contract env _ _ _ _ _ Hph Hl) as (_ & _ & Hch & _).
  destruct (Hch _ Hx) as [i Hi]. rewrite Hi. intros <-. by apply (Hc i).
Qed.

Lemma toolCallLoop_has tcs ds out r p :
  toolCallLoop env tcs ds = (out, r) ->
  (forall i, role (ChTool i) p = RBad) -> has p out = false.
Proof.
  intros Hl Hp.
  assert (Hph : tracksTools tcs (toolPhases tcs)) by done.
  destruct (toolCallLoop_contract env _ _ _ _ _ Hph Hl) as (Hm & _ & Hch & _).
  apply bool_decide_eq_false. intros ([c e] & -> & Hx)%list_elem_of_fmap.
  destruct (Hch _ Hx) as [i Hi]. simpl in *. subst c.
  by apply (monitor_roles env _ _ _ Hm Hx), Hp.
Qed.

(** *** One call of [transform] *)

Lemma emitToolCalls_summary d st out st' :
  emitToolCalls env d st = (out, Normal st') ->
  textStarted st' = textStarted st /\ reasoningStarted st' = reasoningStarted st
  /\ has (TextStart (textId env)) out = false
  /\ has (ReasoningStart (reasoningId env)) out = false
  /\ deltasOn ChText out = [] /\ deltasOn ChReasoning out = []
  /\ toolsOk env st out st' (default [] (tool_calls d))
  /\ usage st' = usage st /\ finishReason st' = finishReason st.
Proof.
  unfold emitToolCalls. destruct (tool_calls d) as [ds|]; simpl.
  - destruct (toolCallLoop env (toolCalls st) ds) as [o [tcs|e]] eqn:Hl; [|done].
    intros [= <- <-]. simpl. repeat split.
    + by apply (toolCallLoop_has _ _ _ _ _ Hl).
    + by apply (toolCallLoop_has _ _ _ _ _ Hl).
    + apply deltasOn_other. by apply (toolCallLoop_quiet _ _ _ _ _ Hl).
    + apply deltasOn_other. by apply (toolCallLoop_quiet _ _ _ _ _ Hl).
    + intros i rest. simpl. by apply expected_loop.
  - intros [= <- <-]. by repeat split.
Qed.

Lemma default_last_app {A} (d : A) (x y : list A) :
  default d (last (x ++ y)) = default (default d (last x)) (last y).
Proof. rewrite last_app. by destruct (last y). Qed.

Lemma transformOk_nil st : transformOk env st [] [] st.
Proof. repeat split; simpl; by rewrite ?orb_false_r. Qed.

Lemma transformOk_app st a o1 st1 b o2 st2 :
  transformOk env st a o1 st1 -> transformOk env st1 b o2 st2 ->
  transformOk env st (a ++ b) (o1 ++ o2) st2.
Proof.
  intros (A1 & A2 & A3 & A4 & A5 & A6 & A7) (B1 & B2 & B3 & B4 & B5 & B6 & B7).
  unfold transformOk, arrivedText, arrivedReasoning.
  rewrite !has_app, !deltasOn_app, !omap_app, !default_last_app, flat_map_app.
  split; [by rewrite B1, A1, orb_assoc|]. split; [by rewrite B2, A2, orb_assoc|].
  split; [by rewrite A3, B3|]. split; [by rewrite A4, B4|].
  split; [|by rewrite B6, B7, A6, A7].
  intros i rest. rewrite deltasOn_app, argsFor_app, <- !app_assoc.
  by rewrite (B5 i rest), (A5 i).
Qed.

Lemma transform_ok st chunk out st' :
  transform env st chunk = (out, Normal st') -> transformOk env st [chunk] out st'.
Proof.
  unfold transform.
  destruct chunk as [[v|err]|err];
    [|intros [= <- <-]; repeat split; simpl; by rewrite ?orb_false_r..].
  destruct (openStream env v st) as [o1 st1] eqn:H1.
  apply openStream_summary in H1 as (A1 & A2 & A3 & A4 & A5 & A6 & A7 & A8).
  set (st3 := trackFinishReason v (trackUsage v st1)).
  assert (Hu : usage st3 = default (usage st) (fragmentUsage (Success (ChunkData v)))).
  { subst st3. unfold trackFinishReason.
    destruct (firstChoice v ≫= finish_reason); simpl; by rewrite trackUsage_usage, A7. }
  assert (Hf : finishReason st3
               = default (finishReason st) (fragmentFinishReason (Success (ChunkData v)))).
  { subst st3. rewrite trackFinishReason_reason. f_equal. unfold trackUsage.
    by destruct (chunkUsage v). }
  assert (Hsame : textStarted st3 = textStarted st1 /\ reasoningStarted st3 = reasoningStarted st1
                  /\ toolCalls st3 = toolCalls st1).
  { subst st3. unfold trackFinishReason, trackUsage.
    by destruct (firstChoice v ≫= finish_reason), (chunkUsage v). }
  destruct Hsame as (S1 & S2 & S3).
  assert (Hlast : forall (A : Type) (d : A) (o : option A), default d (last (optionList o)) = default d o).
  { intros A d0 [x|]; done. }
  assert (Hom : forall (A : Type) (f : ParseResult -> option A) c, omap f [c] = optionList (f c)).
  { intros A f c. simpl. by destruct (f c). }
  unfold transformOk, arrivedText, arrivedReasoning. rewrite !Hom, !Hlast.
  destruct (firstChoice v ≫= delta) as [d|] eqn:Hd.
  2:{ intros [= <- <-]. simpl. rewrite Hd. simpl.
      split; [congruence|]. split; [congruence|]. split; [done|]. split; [done|].
      split; [|done]. intros i rest. unfold fragmentToolCalls. simpl. rewrite Hd. simpl.
      by rewrite A5, S3, A6. }
  destruct (emitReasoning env d st3) as [o4 st4] eqn:H4.
  apply emitReasoning_summary in H4 as (B1 & B2 & B3 & B4 & B5 & B6 & B7 & B8).
  destruct (emitText env d st4) as [o5 st5] eqn:H5.
  apply emitText_summary in H5 as (C1 & C2 & C3 & C4 & C5 & C6 & C7 & C8).
  destruct (emitToolCalls env d st5) as [o6 r6] eqn:H6. intros [= <- ->].
  apply emitToolCalls_summary in H6 as (D1 & D2 & D3 & D4 & D5 & D6 & D7 & D8 & D9).
  simpl. rewrite Hd. simpl.
  rewrite !has_app, !deltasOn_app, A3, A4, B3, B4, C3, C4, D3, D4, D5, D6.
  rewrite !app_nil_r. simpl. rewrite !orb_false_r.
  split; [by rewrite D1, C1, B1, S1, A1, !orb_assoc|].
  split; [by rewrite D2, C2, B2, S2, A2, !orb_assoc|].
  split; [done|]. split; [done|].
  split; [|by rewrite D8, D9, C7, C8, B7, B8].
  intros i rest. unfold fragmentToolCalls. simpl. rewrite Hd. simpl.
  rewrite !deltasOn_app, A5, B5, C5. simpl.
  rewrite (D7 i rest). by rewrite C6, B6, S3, A6.
Qed.

Lemma transformAll_ok chunks : forall st out st',
  transformAll env st chunks = (out, Normal st') -> transformOk env st chunks out st'.
Proof.
  induction chunks as [|c chunks IH]; intros st out st' H; simpl in H.
  { injection H as <- <-. apply transformOk_nil. }
  destruct (transform env st c) as [o1 [st1|e]] eqn:H1; [|done].
  destruct (transformAll env st1 chunks) as [o2 r2] eqn:H2. injection H as <- ->.
  change (c :: chunks) with ([c] ++ chunks).
  eapply transformOk_app; [by apply transform_ok|by apply IH].
Qed.

End Summary.

(** * The stream claims *)

Section StreamClaims.

Import MapFinishReason ChatModel StreamSpec StreamInv.

Variable env : Env.

Lemma doStream_closed chunks out :
  doStream env chunks = Closed out ->
  exists body st,
    transformAll env initialState chunks = (body, Normal st) /\ out = body ++ flush env st.
Proof.
  unfold doStream, pump.
  destruct (transformAll env initialState chunks) as [body [st|e]]; [|done].
  intros [= <-]. by exists body, st.
Qed.

(** a fragment without tool-call fragments never makes [transform] throw *)
Lemma transform_without_tool_calls st chunk :
  fragmentToolCalls chunk = [] ->
  exists out st', transform env st chunk = (out, Normal st').
Proof.
  intros Hn. unfold transform. destruct chunk as [[v|err]|err]; [|by eexists _, _..].
  destruct (openStream env v st) as [o1 st1].
  unfold fragmentToolCalls in Hn. simpl in Hn.
  destruct (firstChoice v ≫= delta) as [d|]; [|by eexists _, _].
  destruct (emitReasoning env d _) as [o4 st4]. destruct (emitText env d st4) as [o5 st5].
  unfold emitToolCalls. simpl in Hn. destruct (tool_calls d) as [ds|]; [|by eexists _, _].
  simpl in Hn. subst ds. simpl. by eexists _, _.
Qed.

(** so a stream of such fragments closes *)
Lemma doStream_closes_without_tool_calls chunks :
  Forall (fun c => fragmentToolCalls c = []) chunks ->
  exists out, doStream env chunks = Closed out.
Proof.
  unfold doStream, pump. generalize initialState.
  induction chunks as [|c chunks IH]; intros st Hall; simpl; [by eexists|].
  apply Forall_cons in Hall as [Hc Hall].
  destruct (transform_without_tool_calls st c Hc) as (o1 & st1 & ->).
  destruct (IH st1 Hall) as [out Hout].
  destruct (transformAll env st1 chunks) as [o2 [st2|e]]; [by eexists|done].
Qed.

Lemma flush_deltas st c : deltasOn c (flush env st) = [].
Proof.
  unfold flush, deltasOn, deltaOn.
  destruct (reasoningStarted st), (textStarted st); simpl; repeat case_decide; subst; done.
Qed.

Lemma expected_nil o : expected (isParsableJson env) o [] = [].
Proof. destruct o as [tc|]; simpl; [by destruct (tc_hasFinished tc)|done]. Qed.

Lemma joined_dropEmptyHead l : joined (dropEmptyHead l) = joined l.
Proof.
  destruct l as [|f l]; [done|]. simpl. destruct (Js.nonEmpty f) eqn:E; [done|].
  by apply nonEmpty_false in E as ->.
Qed.

(** C1: a tool-call part is enqueued only for an accumulated argument
    string that is parsable JSON, directly after the tool-input-end of the
    same tool call, and nothing is enqueued for that index afterwards. *)
Theorem C1_tool_call_finalization chunks p c id name input s :
  enqueued (doStream env chunks) = p ++ (c, ToolCall id name input) :: s ->
  exists i,
    c = ChTool i
    /\ isParsableJson env input = true
    /\ input = joined (deltasOn (ChTool i) p)
    /\ (exists p', p = p' ++ [(ChTool i, ToolInputEnd id)])
    /\ forall x, x ∈ s -> x.1 <> ChTool i.
Proof.
  intros E. destruct (doStream_contract env chunks) as [Hm Hp]. rewrite E in Hm, Hp.
  assert (Hr : exists i, c = ChTool i).
  { apply (monitor_roles env _ fresh (c, ToolCall id name input)) in Hm as Hr;
      [|apply elem_of_app; right; by left].
    destruct c; try done. by eexists. }
  destruct Hr as [i ->]. exists i. split; [done|].
  destruct (monitor_tool_call _ p fresh (ChTool i) _ input s Hm eq_refl) as (Hv & Hs & Ha).
  split; [done|]. split; [by apply Ha|]. split; [|done].
  by apply paired_split in Hp.
Qed.

(** C3: on every channel a start part precedes the first delta part, and
    at most one start part is enqueued. *)
Theorem C3_start_precedes_delta chunks :
  (forall p c e d s,
      enqueued (doStream env chunks) = p ++ (c, e) :: s -> role c e = RDelta d ->
      exists e0, (c, e0) ∈ p /\ role c e0 = RStart)
  /\ (forall p c e1 q e2 s,
      enqueued (doStream env chunks) = p ++ (c, e1) :: q ++ (c, e2) :: s ->
      role c e1 = RStart -> role c e2 <> RStart)
  /\ (forall x, x ∈ enqueued (doStream env chunks) -> role x.1 x.2 <> RBad).
Proof.
  destruct (doStream_contract env chunks) as [Hm _]. repeat split.
  - intros p c e d s E Hr. rewrite E in Hm. by eapply monitor_start_before_delta.
  - intros p c e1 q e2 s E H1 H2. rewrite E in Hm. by eapply monitor_single_start.
  - intros x Hx. by eapply monitor_roles.
Qed.

Lemma flush_closing st body :
  reasoningStarted st = has (ReasoningStart (reasoningId env)) body ->
  textStarted st = has (TextStart (textId env)) body ->
  (flush env st).*2 = closing env body.*2 (finishReason st) (usage st).
Proof.
  unfold flush, closing, has. intros -> ->.
  by destruct (bool_decide _), (bool_decide _).
Qed.

(** C4: when the stream closes, the parts are those of the [transform]
    calls, none of them an end part, followed by reasoning-end if
    reasoning was started, text-end if text was started, and finish; a
    stream that does not close has no end part. *)
Theorem C4_end_parts_at_close chunks :
  match doStream env chunks with
  | Closed out =>
      exists body f u,
        (transformAll env initialState chunks).1 = body
        /\ out.*2 = body.*2 ++ closing env body.*2 f u
        /\ Forall (fun p => isEnd p = false) body.*2
  | Errored out _ => Forall (fun p => isEnd p = false) out.*2
  end.
Proof.
  unfold doStream, pump.
  destruct (transformAll env initialState chunks) as [body [st|e]] eqn:H;
    destruct (transformAll_contract env _ _ _ _ _ tracks_initial H) as (_ & _ & Hn & _).
  - exists body, (finishReason st), (usage st). split; [done|].
    apply transformAll_ok in H as (F1 & F2 & _). simpl in F1, F2.
    split.
    + rewrite fmap_app. f_equal. by apply flush_closing.
    + apply Forall_forall. intros x ([c e] & -> & Hx)%list_elem_of_fmap. by apply (Hn _ Hx).
  - apply Forall_forall. intros x ([c e'] & -> & Hx)%list_elem_of_fmap. by apply (Hn _ Hx).
Qed.

(** C5 as amended: text and reasoning deltas are the non-empty fragments
    in arrival order; the deltas of a tool call are its argument fragments
    in arrival order up to the one that completes a parsable string. *)
Theorem C5_deltas_in_arrival_order chunks out :
  doStream env chunks = Closed out ->
  deltasOn ChText out = arrivedText chunks
  /\ deltasOn ChReasoning out = arrivedReasoning chunks
  /\ forall i,
      deltasOn (ChTool i) out
      = dropEmptyHead (untilParsable (isParsableJson env) "" (arrivedArgs i chunks))
      /\ joined (deltasOn (ChTool i) out)
         = joined (untilParsable (isParsableJson env) "" (arrivedArgs i chunks)).
Proof.
  intros (body & st & H & ->)%doStream_closed.
  apply transformAll_ok in H as (_ & _ & F3 & F4 & F5 & _).
  rewrite !deltasOn_app, !flush_deltas, !app_nil_r. split; [done|]. split; [done|].
  intros i. rewrite deltasOn_app, flush_deltas, app_nil_r.
  assert (E : deltasOn (ChTool i) body
              = dropEmptyHead (untilParsable (isParsableJson env) "" (arrivedArgs i chunks))).
  { specialize (F5 i []). rewrite expected_nil, !app_nil_r in F5. by rewrite F5. }
  split; [done|]. by rewrite E, joined_dropEmptyHead.
Qed.

(** C6: usage totals overwrite the tracked usage, and the finish part
    reports those of the last fragment that carried any. *)
Theorem C6_usage_last_write_wins chunks out :
  doStream env chunks = Closed out ->
  (exists body f, out.*2 = body ++ [Finish f (lastUsage chunks)])
  /\ forall st value totals o st',
      chunkUsage value = Some totals ->
      transform env st (Success (ChunkData value)) = (o, Normal st') ->
      usage st' = usageOf totals.
Proof.
  intros (body & st & H & ->)%doStream_closed. split.
  - apply transformAll_ok in H as (_ & _ & _ & _ & _ & F6 & _).
    unfold flush. rewrite !fmap_app, !app_assoc. eexists _, _. f_equal.
    simpl. by rewrite F6.
  - intros st0 value totals o st' Hu Ht.
    apply transform_ok in Ht as (_ & _ & _ & _ & _ & F6 & _).
    rewrite F6. simpl. by rewrite Hu.
Qed.

Lemma default_last_single {A B} (f : A -> option B) (d : B) (c : A) :
  default d (last (omap f [c])) = default d (f c).
Proof. simpl. by destruct (f c). Qed.

Lemma quiet_keeps_error post : forall f,
  Forall (fun c => overridesFinishReason c = false) post ->
  f = errorFinishReason ->
  default f (last (omap fragmentFinishReason post)) = errorFinishReason.
Proof.
  induction post as [|c post IH]; intros f Hq ->; [done|].
  apply Forall_cons in Hq as [Hc Hq].
  change (c :: post) with ([c] ++ post). rewrite omap_app, default_last_app.
  apply IH; [done|]. rewrite default_last_single. unfold overridesFinishReason in Hc.
  destruct c as [[v|e]|e]; [|done..].
  cbn [malformed negb andb fragmentFinishReason] in *.
  destruct (firstChoice v ≫= finish_reason); [|reflexivity].
  apply bool_decide_eq_false in Hc. exfalso. apply Hc. by eexists.
Qed.

(** C2 as amended: a malformed fragment only enqueues an error part and
    sets the finish reason to error; when the stream closes, the finish
    part carries the error reason unless a later well-formed fragment
    carried a finish reason. *)
Theorem C2_malformed_fragment pre bad post out :
  malformed bad = true ->
  Forall (fun c => overridesFinishReason c = false) post ->
  doStream env (pre ++ bad :: post) = Closed out ->
  (exists err, forall st,
      transform env st bad
      = ([(ChControl, PError err)], Normal (setFinishReason st errorFinishReason)))
  /\ exists body u, out.*2 = body ++ [Finish errorFinishReason u].
Proof.
  intros Hb Hq (body & st & H & ->)%doStream_closed. split.
  - destruct bad as [[v|e]|e]; try done; by exists e.
  - apply transformAll_ok in H as (_ & _ & _ & _ & _ & _ & F7).
    assert (E : finishReason st = errorFinishReason).
    { rewrite F7. change (bad :: post) with ([bad] ++ post).
      rewrite !omap_app, !default_last_app. apply quiet_keeps_error; [done|].
      rewrite default_last_single. by destruct bad as [[v|e]|e]. }
    unfold flush. rewrite !fmap_app, !app_assoc. eexists _, _. f_equal.
    simpl. by rewrite E.
Qed.

Lemma toolCallStep_invalid tcs d :
  tcs !! tcd_index d = None -> invalidFirst d ->
  exists message, toolCallStep env tcs d = ([], Throw (InvalidResponseDataError d message)).
Proof.
  intros Hl Hi. unfold toolCallStep. rewrite Hl.
  destruct (bool_decide (tcd_type d = Some "function")) eqn:Ht; simpl; [|by eexists].
  destruct (tcd_id d) eqn:Hid; [|by eexists].
  destruct (fn_name (tcd_function d)) eqn:Hn; [|by eexists].
  apply bool_decide_eq_true in Ht. destruct Hi as [?|[?|?]]; congruence.
Qed.

Lemma toolCallStep_other tcs d out tcs' i :
  toolCallStep env tcs d = (out, Normal tcs') -> tcd_index d <> i -> tcs' !! i = tcs !! i.
Proof.
  unfold toolCallStep. intros H Hi.
  repeat case_match; simplify_eq; try done; by rewrite lookup_insert_ne.
Qed.

Lemma toolCallLoop_invalid pre : forall tcs d,
  tcs !! tcd_index d = None -> invalidFirst d ->
  (forall d', d' ∈ pre -> tcd_index d' <> tcd_index d) ->
  exists out data message,
    forall post, toolCallLoop env tcs (pre ++ d :: post)
                 = (out, Throw (InvalidResponseDataError data message)).
Proof.
  induction pre as [|d0 pre IH]; intros tcs d Hl Hi Hpre; simpl.
  - destruct (toolCallStep_invalid _ _ Hl Hi) as [m Hs]. exists [], d, m. by rewrite Hs.
  - destruct (toolCallStep env tcs d0) as [o1 [tcs1|e]] eqn:Hs.
    + assert (Hl1 : tcs1 !! tcd_index d = None).
      { rewrite (toolCallStep_other _ _ _ _ _ Hs); [done|]. apply Hpre. by left. }
      destruct (IH tcs1 d Hl1 Hi) as (o2 & data & m & Hloop).
      { intros d' Hd'. apply Hpre. by right. }
      exists (o1 ++ o2), data, m. intros post. by rewrite Hloop.
    + destruct e as [data m]. by exists o1, data, m.
Qed.

Lemma noError_app a b : noError a -> noError b -> noError (a ++ b).
Proof. intros Ha Hb x [?|?]%elem_of_app; auto. Qed.

Ltac no_error :=
  let x := fresh "x" in let Hx := fresh "Hx" in
  intros x Hx; repeat (apply elem_of_cons in Hx as [->|Hx]; [done|]); by inversion Hx.

Lemma transform_data_noError st v out r :
  transform env st (Success (ChunkData v)) = (out, r) -> noError out.
Proof.
  unfold transform.
  destruct (openStream env v st) as [o1 st1] eqn:H1.
  assert (N1 : noError o1).
  { revert H1. unfold openStream. destruct (isFirstChunk st); intros [= <- <-]; no_error. }
  destruct (firstChoice v ≫= delta) as [d|]; [|by intros [= <- <-]].
  destruct (emitReasoning env d _) as [o4 st4] eqn:H4.
  assert (N4 : noError o4).
  { revert H4. unfold emitReasoning. destruct (reasoning d) as [s|];
      [destruct (Js.nonEmpty s); [destruct (reasoningStarted _)|]|]; intros [= <- <-]; no_error. }
  destruct (emitText env d st4) as [o5 st5] eqn:H5.
  assert (N5 : noError o5).
  { revert H5. unfold emitText. destruct (content d) as [s|];
      [destruct (Js.nonEmpty s); [destruct (textStarted _)|]|]; intros [= <- <-]; no_error. }
  destruct (emitToolCalls env d st5) as [o6 r6] eqn:H6. intros [= <- <-].
  repeat apply noError_app; try done.
  revert H6. unfold emitToolCalls. destruct (tool_calls d) as [ds|].
  - destruct (toolCallLoop env (toolCalls st5) ds) as [o r'] eqn:Hl.
    intros E. assert (o6 = o) as -> by (destruct r'; by injection E).
    intros x Hx err Hp.
    pose proof (toolCallLoop_has env _ _ _ _ (PError err) Hl ltac:(done)) as Hh.
    apply bool_decide_eq_false in Hh. apply Hh, list_elem_of_fmap. by exists x.
  - intros [= <- <-]. no_error.
Qed.

(** C9: a first tool-call fragment without the function type, an id or
    a function name makes [transform] throw InvalidResponseDataError: no
    error part is enqueued, the fragments after it are not looked at, and
    the stream ends in the errored state without a finish part. *)
Theorem C9_invalid_first_fragment st value dl pre d post :
  firstChoice value ≫= delta = Some dl ->
  tool_calls dl = Some (pre ++ d :: post) ->
  toolCalls st !! tcd_index d = None ->
  (forall d', d' ∈ pre -> tcd_index d' <> tcd_index d) ->
  invalidFirst d ->
  exists out data message,
    transform env st (Success (ChunkData value))
    = (out, Throw (InvalidResponseDataError data message))
    /\ (forall x, x ∈ out -> forall err, x.2 <> PError err)
    /\ toolCallLoop env (toolCalls st) (pre ++ d :: post)
       = toolCallLoop env (toolCalls st) (pre ++ [d])
    /\ forall rest,
        pump env st (Success (ChunkData value) :: rest)
        = Errored out (InvalidResponseDataError data message).
Proof.
  intros Hd Htc Hl Hpre Hi.
  destruct (toolCallLoop_invalid pre (toolCalls st) d Hl Hi Hpre) as (o6 & data & m & Hloop).
  destruct (transform env st (Success (ChunkData value))) as [out r] eqn:Ht.
  pose proof (transform_data_noError _ _ _ _ Ht) as Hne.
  assert (r = Throw (InvalidResponseDataError data m)) as ->.
  { revert Ht. unfold transform. rewrite Hd.
    destruct (openStream env value st) as [o1 st1] eqn:H1.
    destruct (emitReasoning env dl _) as [o4 st4] eqn:H4.
    destruct (emitText env dl st4) as [o5 st5] eqn:H5.
    assert (Hsame : toolCalls st5 = toolCalls st).
    { apply openStream_summary in H1 as (_ & _ & _ & _ & _ & A6 & _).
      apply emitReasoning_summary in H4 as (_ & _ & _ & _ & _ & B6 & _).
      apply emitText_summary in H5 as (_ & _ & _ & _ & _ & C6 & _).
      rewrite C6, B6. unfold trackFinishReason, trackUsage.
      by destruct (firstChoice value ≫= finish_reason), (chunkUsage value). }
    unfold emitToolCalls. rewrite Htc, Hsame, Hloop. by intros [= <- <-]. }
  exists out, data, m. split; [done|]. split; [done|]. split; [by rewrite !Hloop|].
  intros rest. unfold pump. cbn [transformAll]. by rewrite Ht.
Qed.

End StreamClaims.

(** * Finish reasons, message conversion, translation guards *)

Section FinishReasonClaims.

Import MapFinishReason.

(** C7: the vendor's finish reasons map to the normalized ones as
    tabulated, every other input maps to "other", and the raw string is
    kept ([undefined] for [null] and [undefined]). *)
Theorem C7_mapSarvamFinishReason_table :
  mapSarvamFinishReason (Js.Val "stop") = mkFinishReason Stop (Some "stop")
  /\ mapSarvamFinishReason (Js.Val "length") = mkFinishReason Length (Some "length")
  /\ mapSarvamFinishReason (Js.Val "content_filter")
     = mkFinishReason ContentFilter (Some "content_filter")
  /\ mapSarvamFinishReason (Js.Val "function_call")
     = mkFinishReason ToolCalls (Some "function_call")
  /\ mapSarvamFinishReason (Js.Val "tool_calls") = mkFinishReason ToolCalls (Some "tool_calls")
  /\ (forall s,
       s ∉ ["stop"; "length"; "content_filter"; "function_call"; "tool_calls"] ->
       mapSarvamFinishReason (Js.Val s) = mkFinishReason Other (Some s))
  /\ mapSarvamFinishReason Js.Null = mkFinishReason Other None
  /\ mapSarvamFinishReason Js.Undefined = mkFinishReason Other None
  /\ (forall x, raw (mapSarvamFinishReason x) = Js.orUndefined x)
  /\ (forall x, unified (mapSarvamFinishReason x) <> Error).
Proof.
  repeat split; try done.
  - intros s Hs. unfold mapSarvamFinishReason. rewrite !elem_of_cons in Hs.
    repeat (match goal with
            | |- context [String.eqb s ?t] =>
                destruct (String.eqb_spec s t) as [E|_]; simpl; [exfalso; tauto|]
            end).
    done.
  - intros [| |s]; try done. unfold mapSarvamFinishReason.
    repeat (destruct (String.eqb s _); simpl; [done|]). done.
  - intros [| |s]; try done. unfold mapSarvamFinishReason.
    repeat (destruct (String.eqb s _); simpl; [done|]). done.
Qed.

End FinishReasonClaims.

Section ConvertClaims.

Import ConvertMessages.

Variable JSONValue : Type.
Variable JSON_stringify : JSONValue -> string.
Variable toBase64 : list Byte.byte -> string.

Abbreviation convert := (convertToSarvamChatMessages JSONValue JSON_stringify toBase64).
Abbreviation turnMessages := (messagesOfTurn JSONValue JSON_stringify toBase64).

Lemma convertUserParts_images content :
  (forall mediaType data, UserFile mediaType data ∈ content ->
                          Js.startsWith "image/" mediaType = true) ->
  convertUserParts toBase64 content = inr (map (partOf toBase64) content).
Proof.
  induction content as [|part content IH]; intros H; simpl; [done|].
  rewrite IH by (intros ? ? ?; eapply H; by right).
  destruct part as [text|mediaType data]; simpl; [done|].
  rewrite (H mediaType data) by (by left). simpl. by destruct data.
Qed.

Lemma assistant_fold content : forall text toolCalls,
  fold_left (assistantStep JSONValue JSON_stringify) content (text, toolCalls)
  = (text +:+ foldr String.append "" (omap (textOf JSONValue) content),
     toolCalls ++ omap (toolCallOf JSONValue JSON_stringify) content).
Proof.
  induction content as [|part content IH]; intros text toolCalls; simpl.
  { by rewrite append_empty_r, app_nil_r. }
  destruct part; simpl; rewrite IH; simpl.
  - by rewrite append_assoc.
  - by rewrite <- app_assoc.
  - done.
Qed.

Lemma tool_fold content : forall messages,
  fold_left (toolStep JSONValue JSON_stringify) content messages
  = messages ++ omap (toolMessageOf JSONValue JSON_stringify) content.
Proof.
  induction content as [|part content IH]; intros messages; simpl.
  { by rewrite app_nil_r. }
  destruct part; simpl; rewrite IH; [by rewrite <- app_assoc|done].
Qed.

Lemma convertTurn_messages fake messages turn :
  (forall content mediaType data, turn = User content -> UserFile mediaType data ∈ content ->
                                  Js.startsWith "image/" mediaType = true) ->
  convertTurn JSONValue JSON_stringify toBase64 fake messages turn
  = inr (messages ++ turnMessages fake turn).
Proof.
  intros H. destruct turn as [content|content|content|content]; simpl.
  - unfold systemContent, Js.truthy. destruct fake as [f|]; [|done]. by destruct (Js.nonEmpty f).
  - specialize (H content).
    assert (E : convertUserParts toBase64 content = inr (map (partOf toBase64) content)).
    { apply convertUserParts_images. intros. by eapply H. }
    destruct content as [|[text|mt data] [|p2 rest]]; try done; by rewrite E.
  - rewrite assistant_fold. simpl.
    by destruct (omap (toolCallOf JSONValue JSON_stringify) content).
  - by rewrite tool_fold.
Qed.

Lemma convertLoop_messages fake prompt : forall messages,
  imagesOnly JSONValue prompt ->
  convertLoop JSONValue JSON_stringify toBase64 fake messages prompt
  = inr (messages ++ flat_map (turnMessages fake) prompt).
Proof.
  induction prompt as [|turn prompt IH]; intros messages H; simpl.
  { by rewrite app_nil_r. }
  rewrite convertTurn_messages.
  - rewrite IH; [by rewrite <- app_assoc|].
    intros content mt data Hc. apply H. by right.
  - intros content mt data ->. apply H. by left.
Qed.

(** C8: a prompt whose file parts are all images converts to the vendor
    messages of its turns, in the order of the turns. *)
Theorem C8_convert_in_turn_order prompt fake :
  imagesOnly JSONValue prompt ->
  convert prompt fake = inr (flat_map (turnMessages fake) prompt).
Proof. intros H. unfold convertToSarvamChatMessages. by rewrite convertLoop_messages. Qed.

End ConvertClaims.

Section TranslationClaims.

Import ConvertMessages TranslationModel.

Variable JSONValue : Type.
Variable JSON_stringify : JSONValue -> string.
Variable toBase64 : list Byte.byte -> string.

(** C10: with equal source and target language, or with the model
    sarvam-translate:v1 and a mode other than formal or no source
    language, [doGenerate] throws before a request body exists and
    without sending anything. *)
Theorem C10_translation_guards server settings prompt w :
  rejected settings ->
  exists message,
    getArgs JSONValue JSON_stringify toBase64 settings prompt = inl (Error message)
    /\ doGenerate JSONValue JSON_stringify toBase64 server settings prompt w
       = (inl (Error message), w).
Proof.
  intros Hr.
  assert (E : exists message,
             getArgs JSONValue JSON_stringify toBase64 settings prompt = inl (Error message)).
  { unfold getArgs. destruct (bool_decide (from settings = to settings)) eqn:Hft; [by eexists|].
    apply bool_decide_eq_false in Hft.
    destruct Hr as [?|[Hm Hr]]; [done|]. rewrite bool_decide_true by done. simpl.
    destruct (bool_decide (default "formal" (mode settings) = "formal")) eqn:Hmode;
      simpl; [|by eexists].
    apply bool_decide_eq_true in Hmode.
    destruct Hr as [(m & Hm1 & Hm2)|Hf].
    { rewrite Hm1 in Hmode. done. }
    rewrite bool_decide_true; [by eexists|]. by destruct Hf as [-> | ->]. }
  destruct E as [message E]. exists message. split; [done|].
  unfold doGenerate. by rewrite E.
Qed.

End TranslationClaims.

(** * Sample runs *)

Section Instances.

Import MapFinishReason ChatModel StreamSpec StreamInv Samples.

(** *** The provider's stream tests, replayed on the model *)

Example json_samples :
  map Json.recognise
      ["{}"; "1"; "12"; (Js.dq "{'value':'Sparkle Day'}"); (Js.dq "{'query': 'latest news on ai'}");
       (Js.dq "[1, 2.5e3, true, null, {'a': ['x\n']}]"); " -0.5 ";
       ""; (Js.dq "{'"); (Js.dq "{'value"); (Js.dq "{'value':'Spark"); "01"; "[1,]"; (Js.dq "{'a':1,}"); "tru"; "1 2"]
  = [true; true; true; true; true; true; true;
     false; false; false; false; false; false; false; false; false].
Proof. vm_compute. reflexivity. Qed.

Example stream_text_deltas :
  parts (doStream env textStream)
  = [ PStreamStart [WarnOther "Streaming is still experimental for Sarvam"];
      PResponseMetadata
        (mkResponseMetadata (Some "chatcmpl-e7f8") (Some "sarvam-m") (Some 1702657020%Z));
      TextStart "txt-0"; TextDelta "txt-0" "Hello"; TextDelta "txt-0" ", ";
      TextDelta "txt-0" "World!"; TextEnd "txt-0";
      Finish (mkFinishReason Stop (Some "stop"))
             (mkUsage (Some 18%Z) None None None (Some 439%Z) None None) ].
Proof. vm_compute. reflexivity. Qed.

Example stream_reasoning_deltas :
  drop 2 (parts (doStream env reasoningStream))
  = [ ReasoningStart "rsn-0"; ReasoningDelta "rsn-0" "I think,";
      ReasoningDelta "rsn-0" "therefore I am."; TextStart "txt-0"; TextDelta "txt-0" "Hello";
      ReasoningEnd "rsn-0"; TextEnd "txt-0";
      Finish (mkFinishReason Stop (Some "stop"))
             (mkUsage (Some 18%Z) None None None (Some 439%Z) None None) ].
Proof. vm_compute. reflexivity. Qed.

Example stream_tool_deltas :
  drop 2 (parts (doStream env toolStream))
  = [ ToolInputStart "call_O17U" "test-tool";
      ToolInputDelta "call_O17U" (Js.dq "{'"); ToolInputDelta "call_O17U" "value";
      ToolInputDelta "call_O17U" (Js.dq "':'"); ToolInputDelta "call_O17U" "Spark";
      ToolInputDelta "call_O17U" "le"; ToolInputDelta "call_O17U" " Day";
      ToolInputDelta "call_O17U" (Js.dq "'}"); ToolInputEnd "call_O17U";
      ToolCall "call_O17U" "test-tool" (Js.dq "{'value':'Sparkle Day'}");
      Finish (mkFinishReason ToolCalls (Some "tool_calls"))
             (mkUsage (Some 18%Z) None None None (Some 439%Z) None None) ].
Proof. vm_compute. reflexivity. Qed.

Example stream_trailing_empty_chunk :
  drop 2 (parts (doStream env trailingEmptyStream))
  = [ ToolInputStart "chatcmpl-tool-b3b3" "searchGoogle";
      ToolInputDelta "chatcmpl-tool-b3b3" (Js.dq "{'query': '");
      ToolInputDelta "chatcmpl-tool-b3b3" "latest"; ToolInputDelta "chatcmpl-tool-b3b3" " news";
      ToolInputDelta "chatcmpl-tool-b3b3" " on"; ToolInputDelta "chatcmpl-tool-b3b3" (Js.dq " ai'}");
      ToolInputEnd "chatcmpl-tool-b3b3";
      ToolCall "chatcmpl-tool-b3b3" "searchGoogle" (Js.dq "{'query': 'latest news on ai'}");
      Finish (mkFinishReason ToolCalls (Some "tool_calls")) undefinedUsage ].
Proof. vm_compute. reflexivity. Qed.

Example stream_error_parts :
  parts (doStream env errorStream)
  = [ PError "invalid_request_error"; Finish errorFinishReason undefinedUsage ]
  /\ parts (doStream env unparsableStream)
     = [ PError "{unparsable}"; Finish errorFinishReason undefinedUsage ].
Proof. split; vm_compute; reflexivity. Qed.

(** a finished tool call ignores every later fragment for its index *)
Lemma finished_tool_call_ignored e tcs d tc :
  tcs !! tcd_index d = Some tc -> tc_hasFinished tc = true ->
  toolCallStep e tcs d = ([], Normal tcs).
Proof. intros Hl Hf. unfold toolCallStep. by rewrite Hl, Hf. Qed.

(** *** The claims at the sample streams *)

Lemma C1_witness :
  exists i,
    ChTool 0 = ChTool i
    /\ isParsableJson env (Js.dq "{'value':'Sparkle Day'}") = true
    /\ (Js.dq "{'value':'Sparkle Day'}") = joined (deltasOn (ChTool i) (take 11 toolStreamOut))
    /\ (exists p', take 11 toolStreamOut = p' ++ [(ChTool i, ToolInputEnd "call_O17U")])
    /\ forall x, x ∈ drop 12 toolStreamOut -> x.1 <> ChTool i.
Proof.
  apply (C1_tool_call_finalization env toolStream (take 11 toolStreamOut) (ChTool 0)
           "call_O17U" "test-tool" (Js.dq "{'value':'Sparkle Day'}") (drop 12 toolStreamOut)).
  vm_compute. reflexivity.
Defined.

Lemma C3_witness :
  exists e0, (ChText, e0) ∈ take 3 textStreamOut /\ role ChText e0 = RStart.
Proof.
  apply (proj1 (C3_start_precedes_delta env textStream) (take 3 textStreamOut) ChText
           (TextDelta "txt-0" "Hello") "Hello" (drop 4 textStreamOut)).
  - vm_compute. reflexivity.
  - reflexivity.
Defined.

Lemma C2_witness :
  (exists err, forall st,
      transform env st (Failure "{unparsable}")
      = ([(ChControl, PError err)], Normal (setFinishReason st errorFinishReason)))
  /\ exists body u,
      (enqueued (doStream env textThenErrorStream)).*2 = body ++ [Finish errorFinishReason u].
Proof.
  apply (C2_malformed_fragment env [textChunk (Some "Hel") (Some "stop")]
           (Failure "{unparsable}") [textChunk (Some "lo") None]).
  - reflexivity.
  - repeat constructor.
  - vm_compute. reflexivity.
Defined.

(** C2 as worded fails: after the unparsable fragment the next one is
    translated as usual and its finish reason replaces the error one. *)
Lemma C2_counterexample :
  malformed (Failure "{unparsable}") = true
  /\ drop 3 (parts (doStream env errorThenTextStream))
     = [ TextStart "txt-0"; TextDelta "txt-0" "Hello"; TextEnd "txt-0";
         Finish (mkFinishReason Stop (Some "stop")) undefinedUsage ]
  /\ ~ AsStated.errorFinishAfterMalformed env errorThenTextStream.
Proof.
  split; [reflexivity|]. split; [vm_compute; reflexivity|].
  intros H.
  destruct (H [] (Failure "{unparsable}") [textChunk (Some "Hello") (Some "stop")]
              eq_refl eq_refl) as (body & u & E).
  assert (L : last (parts (doStream env errorThenTextStream))
              = Some (Finish (mkFinishReason Stop (Some "stop")) undefinedUsage))
    by (vm_compute; reflexivity).
  rewrite E, last_snoc in L. discriminate L.
Qed.

Lemma C5_witness :
  deltasOn ChText textStreamOut = arrivedText textStream
  /\ deltasOn ChReasoning textStreamOut = arrivedReasoning textStream
  /\ forall i,
      deltasOn (ChTool i) textStreamOut
      = dropEmptyHead (untilParsable (isParsableJson env) "" (arrivedArgs i textStream))
      /\ joined (deltasOn (ChTool i) textStreamOut)
         = joined (untilParsable (isParsableJson env) "" (arrivedArgs i textStream)).
Proof.
  apply (C5_deltas_in_arrival_order env textStream textStreamOut).
  vm_compute. reflexivity.
Defined.

(** C5 as worded fails: "1" is parsable, so the tool call is finished
    after the first fragment and the fragment "2" is dropped. *)
Lemma C5_counterexample :
  deltasOn (ChTool 0) (enqueued (doStream env earlyParsableStream)) = ["1"]
  /\ arrived (ChTool 0) earlyParsableStream = ["1"; "2"]
  /\ ~ AsStated.deltasAreArrivals env earlyParsableStream.
Proof.
  split; [vm_compute; reflexivity|]. split; [vm_compute; reflexivity|].
  intros H. specialize (H (ChTool 0)). vm_compute in H. discriminate H.
Qed.

Lemma C6_witness :
  (exists body f,
      textStreamOut.*2
      = body ++ [Finish f (mkUsage (Some 18%Z) None None None (Some 439%Z) None None)])
  /\ forall st value totals o st',
      chunkUsage value = Some totals ->
      transform env st (Success (ChunkData value)) = (o, Normal st') ->
      usage st' = usageOf totals.
Proof.
  apply (C6_usage_last_write_wins env textStream textStreamOut).
  vm_compute. reflexivity.
Defined.

Lemma C9_witness :
  exists out data message,
    transform env initialState (Success (ChunkData (toolValue [noType])))
    = (out, Throw (InvalidResponseDataError data message))
    /\ (forall x, x ∈ out -> forall err, x.2 <> PError err)
    /\ toolCallLoop env (toolCalls initialState) ([] ++ noType :: [])
       = toolCallLoop env (toolCalls initialState) ([] ++ [noType])
    /\ forall rest,
        pump env initialState (Success (ChunkData (toolValue [noType])) :: rest)
        = Errored out (InvalidResponseDataError data message).
Proof.
  apply (C9_invalid_first_fragment env initialState (toolValue [noType])
           (mkDelta None None (Some [noType])) [] noType []).
  - reflexivity.
  - reflexivity.
  - reflexivity.
  - intros d' Hd'. inversion Hd'.
  - left. discriminate.
Defined.

End Instances.

Section OtherInstances.

Import ConvertMessages TranslationModel Samples.

Lemma C8_witness :
  convertToSarvamChatMessages string (fun s => s) (fun _ => "") prompt None
  = inr [ SystemMessage "You are terse.";
          UserMessage (ContentString "Hello");
          UserMessage (ContentParts [ContentPartText "What is this?";
                                     ContentPartImage "data:image/png;base64,iVBORw0KGgo="]);
          AssistantMessage "Let me check." (Some [mkToolCall "call_1" "lookup" "{}"]);
          ToolMessage "call_1" "a cat" ].
Proof.
  apply (C8_convert_in_turn_order string (fun s => s) (fun _ => "") prompt None).
  intros content mediaType data Hc Hf.
  repeat (apply elem_of_cons in Hc as [Hc|Hc];
          [try discriminate Hc; injection Hc as ->;
           repeat (apply elem_of_cons in Hf as [Hf|Hf];
                   [try discriminate Hf; by injection Hf as -> _|]);
           by inversion Hf|]).
  inversion Hc.
Defined.

Lemma C10_witness :
  exists message,
    getArgs string (fun s => s) (fun _ => "") sameLanguage prompt = inl (Error message)
    /\ doGenerate string (fun s => s) (fun _ => "") noServer sameLanguage prompt (mkWorld [])
       = (inl (Error message), mkWorld []).
Proof.
  apply (C10_translation_guards string (fun s => s) (fun _ => "") noServer sameLanguage prompt
           (mkWorld [])).
  left. reflexivity.
Defined.

Example translation_formal_only :
  doGenerate string (fun s => s) (fun _ => "") noServer colloquial prompt (mkWorld [])
  = (inl (Error "Sarvam 'sarvam-translate:v1' only support mode formal."), mkWorld []).
Proof. reflexivity. Qed.

End OtherInstances.

(** * More on the stream of [doStream] *)

Section StreamExtras.

Import MapFinishReason ChatModel StreamSpec StreamInv StreamMore.

Variable env : Env.

(** X1: a closed stream has exactly one finish part, the last one, whose
    finish reason is that of the last fragment that sets one and whose
    usage is that of the last fragment that carries totals. *)
Theorem X1_finish_part chunks out :
  doStream env chunks = Closed out ->
  exists body,
    out.*2 = body ++ [Finish (lastFinishReason chunks) (lastUsage chunks)]
    /\ Forall (fun p => isFinish p = false) body.
Proof.
  intros (body & st & H & ->)%doStream_closed.
  pose proof (transformAll_contract env _ _ _ _ _ (tracks_initial) H) as (_ & _ & Hn & _).
  apply transformAll_ok in H as (_ & _ & _ & _ & _ & F6 & F7).
  unfold flush. rewrite !fmap_app, !app_assoc. eexists. split.
  - f_equal. simpl. rewrite F6, F7. reflexivity.
  - rewrite !Forall_app. split; [split|].
    + apply Forall_forall. intros x ([c e] & -> & Hx)%list_elem_of_fmap.
      specialize (Hn _ Hx). simpl in *. by destruct e.
    + by destruct (reasoningStarted st); repeat constructor.
    + by destruct (textStarted st); repeat constructor.
Qed.








Lemma toolCallStep_open tcs d :
  match openAll (dom tcs) [d] with
  | Some s => exists out tcs', toolCallStep env tcs d = (out, Normal tcs') /\ dom tcs' = s
  | None => exists e, toolCallStep env tcs d = ([], Throw e)
  end.
Proof.
  unfold toolCallStep. simpl. destruct (tcs !! tcd_index d) as [tc|] eqn:Hl.
  - rewrite decide_True by (apply elem_of_dom; by eexists).
    assert (Hd : forall tc', dom (<[tcd_index d := tc']> tcs) = dom tcs).
    { intros tc'. apply dom_insert_lookup_L. by eexists. }
    destruct (tc_hasFinished tc); [by eexists _, _|].
    destruct (isParsableJson env _); eexists _, _; by rewrite ?Hd.
  - rewrite decide_False by (by apply not_elem_of_dom).
    unfold validFirst.
    destruct (bool_decide (tcd_type d = Some "function")); simpl; [|by eexists].
    destruct (tcd_id d) as [id|]; simpl; [|by eexists].
    destruct (fn_name (tcd_function d)) as [name|]; simpl; [|by eexists].
    destruct (isParsableJson env _); eexists _, _; by rewrite dom_insert_L.
Qed.

Lemma openAll_app b : forall seen a,
  openAll seen (a ++ b) = openAll seen a ≫= fun s => openAll s b.
Proof.
  intros seen a. revert seen. induction a as [|d a IH]; intros seen; simpl; [done|].
  destruct (decide (tcd_index d ∈ seen)); [done|]. by destruct (validFirst d).
Qed.

Lemma toolCallLoop_open ds : forall tcs,
  match openAll (dom tcs) ds with
  | Some s => exists out tcs', toolCallLoop env tcs ds = (out, Normal tcs') /\ dom tcs' = s
  | None => exists out e, toolCallLoop env tcs ds = (out, Throw e)
  end.
Proof.
  induction ds as [|d ds IH]; intros tcs.
  { simpl. by eexists _, _. }
  change (d :: ds) with ([d] ++ ds). rewrite openAll_app.
  pose proof (toolCallStep_open tcs d) as Hs.
  destruct (openAll (dom tcs) [d]) as [s1|]; cbn [mbind option_bind].
  - destruct Hs as (o1 & tcs1 & Hs & <-). specialize (IH tcs1).
    simpl. rewrite Hs.
    destruct (openAll (dom tcs1) ds) as [s|].
    + destruct IH as (o2 & tcs2 & -> & <-). by eexists _, _.
    + destruct IH as (o2 & e & ->). by eexists _, _.
  - destruct Hs as (e & Hs). simpl. rewrite Hs. by eexists _, _.
Qed.

Lemma transform_open st chunk :
  match openAll (dom (toolCalls st)) (fragmentToolCalls chunk) with
  | Some s =>
      exists out st', transform env st chunk = (out, Normal st') /\ dom (toolCalls st') = s
  | None => exists out e, transform env st chunk = (out, Throw e)
  end.
Proof.
  unfold transform, fragmentToolCalls.
  destruct chunk as [[v|err]|err]; simpl; [|by eexists _, _..].
  destruct (openStream env v st) as [o1 st1] eqn:H1.
  apply openStream_summary in H1 as (_ & _ & _ & _ & _ & A6 & _).
  set (st3 := trackFinishReason v (trackUsage v st1)).
  assert (S3 : toolCalls st3 = toolCalls st).
  { subst st3. rewrite <- A6. unfold trackFinishReason, trackUsage.
    by destruct (firstChoice v ≫= finish_reason), (chunkUsage v). }
  destruct (firstChoice v ≫= delta) as [d|]; simpl.
  2:{ eexists _, _. split; [done|]. by rewrite S3. }
  destruct (emitReasoning env d st3) as [o4 st4] eqn:H4.
  apply emitReasoning_summary in H4 as (_ & _ & _ & _ & _ & B6 & _).
  destruct (emitText env d st4) as [o5 st5] eqn:H5.
  apply emitText_summary in H5 as (_ & _ & _ & _ & _ & C6 & _).
  assert (S5 : toolCalls st5 = toolCalls st) by (by rewrite C6, B6).
  unfold emitToolCalls. destruct (tool_calls d) as [ds|]; simpl.
  2:{ eexists _, _. split; [done|]. by rewrite S5. }
  pose proof (toolCallLoop_open ds (toolCalls st5)) as Hl. rewrite S5 in *.
  destruct (openAll (dom (toolCalls st)) ds) as [s|].
  - destruct Hl as (o6 & tcs & -> & <-). by eexists _, _.
  - destruct Hl as (o6 & e & ->). by eexists _, _.
Qed.

Lemma transformAll_open chunks : forall st,
  match openAll (dom (toolCalls st)) (flat_map fragmentToolCalls chunks) with
  | Some s =>
      exists out st', transformAll env st chunks = (out, Normal st')
                      /\ dom (toolCalls st') = s
  | None => exists out e, transformAll env st chunks = (out, Throw e)
  end.
Proof.
  induction chunks as [|c chunks IH]; intros st.
  { simpl. by eexists _, _. }
  cbn [flat_map transformAll]. rewrite openAll_app.
  pose proof (transform_open st c) as Hc.
  destruct (openAll (dom (toolCalls st)) (fragmentToolCalls c)) as [s1|];
    cbn [mbind option_bind].
  - destruct Hc as (o1 & st1 & -> & <-). specialize (IH st1).
    destruct (openAll (dom (toolCalls st1)) _) as [s|].
    + destruct IH as (o2 & st2 & -> & <-). by eexists _, _.
    + destruct IH as (o2 & e & ->). by eexists _, _.
  - destruct Hc as (o1 & e & ->). by eexists _, _.
Qed.

(** X3: the stream closes exactly when every tool-call fragment that
    addresses an index without an entry has the function type, an id and
    a function name; otherwise it is errored. *)
Theorem X3_closes_iff_valid_openers chunks :
  ((exists out, doStream env chunks = Closed out)
   <-> is_Some (openAll ∅ (flat_map fragmentToolCalls chunks)))
  /\ ((exists out e, doStream env chunks = Errored out e)
      <-> openAll ∅ (flat_map fragmentToolCalls chunks) = None).
Proof.
  unfold doStream, pump. pose proof (transformAll_open chunks initialState) as H.
  change (dom (toolCalls initialState)) with (dom (∅ : gmap Z ToolCallState)) in H.
  rewrite dom_empty_L in H.
  destruct (openAll ∅ (flat_map fragmentToolCalls chunks)) as [s|].
  - destruct H as (out & st & -> & _). split.
    + split; intros _; by eexists.
    + split; [by intros (? & ? & ?)|done].
  - destruct H as (out & e & ->). split.
    + split; [by intros [? ?]|by intros [? ?]].
    + split; [done|]. intros _. by eexists _, _.
Qed.

Lemma opener_cons i d rest :
  opener i (d :: rest) = if decide (tcd_index d = i) then Some d else opener i rest.
Proof. unfold opener. rewrite filter_cons. by destruct (decide (tcd_index d = i)). Qed.

Lemma identOf_app tcs ds rest i idn :
  identOf tcs ds i = Some idn -> identOf tcs (ds ++ rest) i = Some idn.
Proof.
  unfold identOf. destruct (tcs !! i); [done|].
  induction ds as [|d ds IH]; [done|]. simpl. rewrite !opener_cons.
  by destruct (decide (tcd_index d = i)).
Qed.








End StreamExtras.

(** * More on message conversion and the translation request *)

Section ConvertExtras.

Import ConvertMessages ConvertMore.

Variable JSONValue : Type.
Variable JSON_stringify : JSONValue -> string.
Variable toBase64 : list Byte.byte -> string.

Abbreviation convert := (convertToSarvamChatMessages JSONValue JSON_stringify toBase64).
Abbreviation turnMessages := (messagesOfTurn JSONValue JSON_stringify toBase64).

Lemma convertUserParts_cases content :
  convertUserParts toBase64 content
  = if existsb nonImage content then inl unsupported
    else inr (map (partOf toBase64) content).
Proof.
  induction content as [|part content IH]; simpl; [done|]. rewrite IH.
  destruct part as [text|mediaType data]; simpl.
  - by destruct (existsb nonImage content).
  - destruct (Js.startsWith "image/" mediaType); simpl; [|done].
    destruct (existsb nonImage content); by destruct data.
Qed.

Lemma convertTurn_cases fake messages turn :
  convertTurn JSONValue JSON_stringify toBase64 fake messages turn
  = if offending JSONValue [turn] then inl unsupported
    else inr (messages ++ turnMessages fake turn).
Proof.
  destruct turn as [content|content|content|content].
  1,3,4: apply convertTurn_messages; by intros ? ? ? [=].
  simpl. rewrite orb_false_r.
  pose proof (convertUserParts_cases content) as E.
  destruct content as [|[text|mt data] [|p2 rest]]; try done; rewrite E; simpl;
    by destruct (_ || _).
Qed.

Lemma offending_app (p1 p2 : list (Turn JSONValue)) :
  offending JSONValue (p1 ++ p2) = offending JSONValue p1 || offending JSONValue p2.
Proof. unfold offending. apply existsb_app. Qed.

Lemma convertLoop_cases fake prompt : forall messages,
  convertLoop JSONValue JSON_stringify toBase64 fake messages prompt
  = if offending JSONValue prompt then inl unsupported
    else inr (messages ++ flat_map (turnMessages fake) prompt).
Proof.
  induction prompt as [|turn prompt IH]; intros messages.
  { simpl. by rewrite app_nil_r. }
  cbn [convertLoop]. rewrite convertTurn_cases.
  replace (offending JSONValue (turn :: prompt))
    with (offending JSONValue [turn] || offending JSONValue prompt)
    by (symmetry; apply (offending_app [turn] prompt)).
  destruct (offending JSONValue [turn]); simpl; [done|].
  rewrite IH. destruct (offending JSONValue prompt); [done|]. by rewrite <- app_assoc.
Qed.

Lemma convert_cases prompt fake :
  convert prompt fake
  = if offending JSONValue prompt then inl unsupported
    else inr (flat_map (turnMessages fake) prompt).
Proof. unfold convertToSarvamChatMessages. by rewrite convertLoop_cases. Qed.

(** X5: conversion throws UnsupportedFunctionalityError exactly when some
    user turn holds a file part that is not an image, and otherwise
    returns the messages of the turns in order. *)
Theorem X5_convert_fails_iff_non_image prompt fake :
  convert prompt fake
  = if offending JSONValue prompt then inl unsupported
    else inr (flat_map (turnMessages fake) prompt).
Proof. apply convert_cases. Qed.

(** X6: converting a prompt made of two parts is converting each part
    and appending the results; an exception of the first part wins. *)
Theorem X6_convert_distributes p1 p2 fake :
  convertToSarvamChatMessages JSONValue JSON_stringify toBase64 (p1 ++ p2) fake
  = match convertToSarvamChatMessages JSONValue JSON_stringify toBase64 p1 fake with
    | inl e => inl e
    | inr m1 =>
        match convertToSarvamChatMessages JSONValue JSON_stringify toBase64 p2 fake with
        | inl e => inl e
        | inr m2 => inr (m1 ++ m2)
        end
    end.
Proof.
  rewrite !convert_cases, offending_app, flat_map_app.
  by destruct (offending JSONValue p1), (offending JSONValue p2).
Qed.

(** X7: the extra system prompt only ever reaches system turns: for a
    prompt without a system turn the result does not depend on it. *)
Theorem X7_fake_prompt_needs_system_turn prompt fake :
  existsb (isSystem JSONValue) prompt = false ->
  convert prompt fake = convert prompt None.
Proof.
  intros H. rewrite !convert_cases.
  destruct (offending JSONValue prompt); [done|]. f_equal.
  induction prompt as [|turn prompt IH]; [done|].
  simpl in H. apply orb_false_iff in H as [Ht Hp]. cbn [flat_map]. rewrite (IH Hp).
  f_equal. by destruct turn.
Qed.

End ConvertExtras.

Section TranslationExtras.

Import ConvertMessages ConvertMore TranslationModel.

Variable JSONValue : Type.
Variable JSON_stringify : JSONValue -> string.
Variable toBase64 : list Byte.byte -> string.

Abbreviation args_of := (getArgs JSONValue JSON_stringify toBase64).
Abbreviation generate := (doGenerate JSONValue JSON_stringify toBase64).

Lemma getArgs_error_rejected settings prompt message :
  args_of settings prompt = inl (Error message) -> rejected settings.
Proof.
  unfold getArgs, rejected.
  destruct (bool_decide (from settings = to settings)) eqn:E1.
  { apply bool_decide_eq_true in E1. by left. }
  destruct (bool_decide (modelId settings = "sarvam-translate:v1")) eqn:E2; simpl.
  2:{ by destruct (convertToSarvamChatMessages _ _ _ _ _). }
  apply bool_decide_eq_true in E2.
  destruct (bool_decide (default "formal" (mode settings) = "formal")) eqn:E3; simpl.
  2:{ intros _. right. split; [done|]. left. apply bool_decide_eq_false in E3.
      destruct (mode settings) as [m|]; [by exists m|done]. }
  destruct (bool_decide (default "auto" (from settings) = "auto")) eqn:E4.
  { intros _. right. split; [done|]. right. apply bool_decide_eq_true in E4.
    destruct (from settings) as [f|]; [right; simpl in E4; by subst|by left]. }
  by destruct (convertToSarvamChatMessages _ _ _ _ _).
Qed.

Lemma getArgs_rejected_error settings prompt :
  rejected settings -> exists message, args_of settings prompt = inl (Error message).
Proof.
  intros Hr. unfold getArgs.
  destruct (bool_decide (from settings = to settings)) eqn:Hft; [by eexists|].
  apply bool_decide_eq_false in Hft.
  destruct Hr as [?|[Hm Hr]]; [done|]. rewrite bool_decide_true by done. simpl.
  destruct (bool_decide (default "formal" (mode settings) = "formal")) eqn:Hmode;
    simpl; [|by eexists].
  apply bool_decide_eq_true in Hmode.
  destruct Hr as [(m & Hm1 & Hm2)|Hf].
  { rewrite Hm1 in Hmode. done. }
  rewrite bool_decide_true; [by eexists|]. by destruct Hf as [-> | ->].
Qed.

(** X8: [getArgs] throws an [Error] exactly for the rejected settings:
    equal source and target, or the model sarvam-translate:v1 with a mode
    other than formal or without a source language. *)
Theorem X8_translation_error_iff_rejected settings prompt :
  (exists message, args_of settings prompt = inl (Error message)) <-> rejected settings.
Proof.
  split; [intros [message H]; by eapply getArgs_error_rejected|].
  apply getArgs_rejected_error.
Qed.

Lemma tool_messages_not_user (content : list (ToolPart JSONValue)) :
  omap userContent (omap (toolMessageOf JSONValue JSON_stringify) content) = [].
Proof. induction content as [|[id out|] content IH]; simpl; done. Qed.

Lemma object_strings (content : list UserPart) :
  map (fun _ : SarvamContentPart => "[object Object]") (map (partOf toBase64) content)
  = map (fun _ => "[object Object]") content.
Proof. by rewrite map_map. Qed.

Lemma user_inputs (prompt : list (Turn JSONValue)) :
  omap userContent (flat_map (messagesOfTurn JSONValue JSON_stringify toBase64 None) prompt)
  = omap (turnInput JSONValue) prompt.
Proof.
  induction prompt as [|turn prompt IH]; [done|].
  cbn [flat_map]. rewrite omap_app, IH.
  destruct turn as [content|content|content|content]; simpl; try done.
  - destruct content as [|[text|mt data] [|p2 rest]]; simpl; try done;
      by rewrite ?object_strings.
  - by rewrite tool_messages_not_user.
Qed.

(** X9: for accepted settings and a prompt that converts, [doGenerate]
    sends exactly one request, to /translate; its input is the user turns
    joined by newlines, a lone text part as its text and any other content
    as the string an array of objects joins to, and no other turn. *)
Theorem X9_translation_request server settings prompt w :
  ~ rejected settings ->
  offending JSONValue prompt = false ->
  exists messages args,
    args_of settings prompt = inr (messages, args)
    /\ snd (generate server settings prompt w)
       = mkWorld (sent w ++ [mkRequest "/translate" args])
    /\ input args = String.concat newline (omap (turnInput JSONValue) prompt)
    /\ source_language_code args = default "auto" (from settings)
    /\ target_language_code args = to settings
    /\ args_model args = modelId settings.
Proof.
  intros Hr Ho.
  destruct (args_of settings prompt) as [e|[messages args]] eqn:E.
  { exfalso. destruct e as [m|e|n].
    - apply Hr. by eapply getArgs_error_rejected.
    - revert E. unfold getArgs. destruct (bool_decide (from settings = to settings)); [done|].
      do 2 (destruct (_ && _); [done|]).
      rewrite (convert_cases JSONValue JSON_stringify toBase64), Ho. done.
    - revert E. unfold getArgs. destruct (bool_decide (from settings = to settings)); [done|].
      do 2 (destruct (_ && _); [done|]).
      by destruct (convertToSarvamChatMessages _ _ _ _ _). }
  exists messages, args. split; [done|].
  split.
  { unfold doGenerate. rewrite E. unfold postJsonToApi. by destruct (server _). }
  revert E. unfold getArgs. destruct (bool_decide (from settings = to settings)); [done|].
      do 2 (destruct (_ && _); [done|]).
  rewrite (convert_cases JSONValue JSON_stringify toBase64), Ho. intros [= <- <-]. simpl.
  by rewrite user_inputs.
Qed.

End TranslationExtras.

(** * The transliteration request *)

Section TransliterateExtras.

Import ConvertMessages ConvertMore TransliterateModel.

Variable JSONValue : Type.
Variable JSON_stringify : JSONValue -> string.
Variable toBase64 : list Byte.byte -> string.

Abbreviation xlit_args := (getArgs JSONValue JSON_stringify toBase64).
Abbreviation xlit := (doGenerate JSONValue JSON_stringify toBase64).

Lemma guard_accepts settings :
  negb (bool_decide (from settings = Some "auto"))
  && (negb (bool_decide (to settings = Some "en-IN"))
      && negb (bool_decide (from settings = Some "en-IN"))) = false
  <-> accepted settings.
Proof.
  unfold accepted.
  destruct (bool_decide (from settings = Some "auto")) eqn:E1;
    destruct (bool_decide (to settings = Some "en-IN")) eqn:E2;
    destruct (bool_decide (from settings = Some "en-IN")) eqn:E3; simpl;
    rewrite ?bool_decide_eq_true, ?bool_decide_eq_false in *; split; try done; auto.
  intros [?|[?|?]]; done.
Qed.

(** X10: [getArgs] throws its [Error] exactly when the source is not
    "auto" and neither side is en-IN, an unset source included although
    the request would default it to "auto"; [doGenerate] then sends
    nothing. *)
Theorem X10_transliteration_guard server settings prompt w :
  ((exists message, xlit_args settings prompt = inl (Error message)) <-> ~ accepted settings)
  /\ (~ accepted settings ->
      exists message, xlit server settings prompt w = (inl (Error message), w)).
Proof.
  pose proof (guard_accepts settings) as G. unfold doGenerate, getArgs in *.
  destruct (negb _ && _) eqn:E.
  - assert (Hn : ~ accepted settings) by (intros Ha; apply G in Ha; done).
    split; [split; [done|by eexists]|by eexists].
  - assert (Ha : accepted settings) by (by apply G).
    split; [|done]. split; [|done].
    intros [m Hm]. by destruct (convertToSarvamChatMessages _ _ _ _ _).
Qed.

(** X11: for accepted settings and a prompt that converts, [doGenerate]
    sends exactly one request, to /transliterate, with the user turns as
    input, the source language defaulted to "auto", and the spoken-form
    keys only when spoken_form is true. *)
Theorem X11_transliteration_request server settings prompt w :
  accepted settings ->
  offending JSONValue prompt = false ->
  exists messages args,
    xlit_args settings prompt = inr (messages, args)
    /\ snd (xlit server settings prompt w)
       = mkWorld (sent w ++ [mkRequest "/transliterate" args])
    /\ input args = String.concat newline (omap (turnInput JSONValue) prompt)
    /\ source_language_code args = default "auto" (from settings)
    /\ target_language_code args = to settings
    /\ (is_Some (args_spoken_form args) <-> spoken_form settings = Some true).
Proof.
  intros Ha Ho. apply guard_accepts in Ha. unfold doGenerate, getArgs. rewrite Ha.
  rewrite (convert_cases JSONValue JSON_stringify toBase64), Ho.
  eexists _, _. split; [done|]. split.
  { unfold postJsonToApi. by destruct (server _). }
  simpl. rewrite user_inputs. repeat split; try done.
  - destruct (spoken_form settings) as [[|]|]; by intros [? ?].
  - by intros ->.
Qed.

End TransliterateExtras.

(** * The text-to-speech request *)

Section SpeechExtras.

Import SpeechModel.

Variable Num : Type.

Abbreviation speech_args := (getArgs Num).

Lemma field_app key (a b : Body Num) :
  field Num key (a ++ b)
  = match field Num key a with
    | Some v => Some v
    | None => field Num key b
    end.
Proof.
  unfold field. induction a as [|[k v] a IH]; simpl; [done|].
  by destruct (String.eqb k key).
Qed.

Lemma optionFields_keys sarvamOptions key :
  key ∈ fixedKeys -> field Num key (optionFields Num sarvamOptions) = None.
Proof.
  intros Hk. destruct sarvamOptions as [o|]; [|done]. unfold optionFields, optionalFields.
  destruct o as [sp [p|] [pa|] [l|] [r|] [e|] [c|] [t|]]; simpl;
    repeat (apply elem_of_cons in Hk as [->|Hk]; [reflexivity|]); by inversion Hk.
Qed.

Lemma getArgs_pieces modelId languageCode sarvamOptions text voice outputFormat :
  speech_args modelId languageCode sarvamOptions text voice outputFormat
  = match getSpeaker Num modelId sarvamOptions voice with
    | inl e => inl e
    | inr chosen =>
        inr (fixedFields Num modelId languageCode text chosen
               ++ formatField Num (default "wav" outputFormat)
               ++ optionFields Num sarvamOptions,
             formatWarnings (default "wav" outputFormat))
    end.
Proof.
  unfold getArgs, formatField, formatWarnings, optionFields, fixedFields.
  destruct (getSpeaker Num modelId sarvamOptions voice) as [e|chosen]; [done|].
  destruct (Js.nonEmpty _); simpl; [destruct (bool_decide _); simpl|];
    destruct sarvamOptions; by rewrite ?app_nil_r.
Qed.

Lemma supported_nonEmpty format :
  format ∈ supportedFormats -> Js.nonEmpty format = true.
Proof.
  intros Hf. destruct (Js.nonEmpty format) eqn:Hne; [done|]. exfalso.
  apply nonEmpty_false in Hne. rewrite Hne in Hf.
  unfold supportedFormats in Hf. rewrite !elem_of_cons in Hf.
  repeat (destruct Hf as [Hf|Hf]; [done|]). inversion Hf.
Qed.

(** X12: a supported output format ("wav" when none is given) is sent as
    response_format without a warning; any other non-empty format is not
    sent at all and yields exactly one unsupported-outputFormat warning. *)
Theorem X12_speech_output_format modelId languageCode sarvamOptions text voice outputFormat
    body warnings :
  speech_args modelId languageCode sarvamOptions text voice outputFormat
  = inr (body, warnings) ->
  let format := default "wav" outputFormat in
  if bool_decide (format ∈ supportedFormats)
  then field Num "response_format" body = Some (VString format) /\ warnings = []
  else field Num "response_format" body = None
       /\ warnings = if Js.nonEmpty format then [formatWarning format] else [].
Proof.
  rewrite getArgs_pieces.
  destruct (getSpeaker Num modelId sarvamOptions voice) as [e|chosen]; [done|].
  intros H. cbv zeta.
  assert (body = fixedFields Num modelId languageCode text chosen
                 ++ formatField Num (default "wav" outputFormat)
                 ++ optionFields Num sarvamOptions
          /\ warnings = formatWarnings (default "wav" outputFormat)) as [-> ->]
    by (split; congruence).
  clear H. unfold formatField, formatWarnings.
  assert (Hk : "response_format" ∈ fixedKeys)
    by (unfold fixedKeys; rewrite !elem_of_cons; tauto).
  rewrite !field_app, optionFields_keys by done.
  destruct (bool_decide (default "wav" outputFormat ∈ supportedFormats)) eqn:Hf.
  - apply bool_decide_eq_true in Hf. rewrite (supported_nonEmpty _ Hf). simpl.
    done.
  - rewrite andb_false_r, andb_true_r. simpl. split; [done|].
    by destruct (Js.nonEmpty _).
Qed.




End SpeechExtras.

(** * The mapping of a chat response *)

Section GenerateExtras.

Import MapFinishReason ChatModel ChatGenerate.

Variable JSONValue NewTool : Type.
Variable parseJSON : string -> option JSONValue.
Variable extractToolCallData : JSONValue -> option NewTool.
Variable JSON_stringify : JSONValue -> string.
Variable generateId : nat -> string.

Abbreviation generate :=
  (doGenerate JSONValue NewTool parseJSON extractToolCallData JSON_stringify generateId).
Abbreviation mapped := (mapToolCalls NewTool generateId).
Abbreviation simulated := (simulatedTool JSONValue NewTool parseJSON extractToolCallData).
Abbreviation reasoningPart := (ChatGenerate.reasoningPart NewTool).

Lemma truthy_nonempty text : Js.truthy text = true -> default "" text <> "".
Proof.
  unfold Js.truthy. destruct text as [s|]; [|done]. simpl. by destruct s.
Qed.

Lemma mapToolCalls_calls toolCalls calls :
  Forall2 (sameCall NewTool) toolCalls (mapped toolCalls calls).1
  /\ Forall (fun part => isToolCall NewTool part = true) (mapped toolCalls calls).1.
Proof.
  revert calls. induction toolCalls as [|toolCall rest IH]; intros calls; simpl.
  - split; constructor.
  - destruct (rtc_id toolCall) as [id|] eqn:Hid.
    + destruct (mapped rest calls) as [parts calls'] eqn:E. simpl.
      destruct (IH calls) as [H1 H2]. rewrite E in H1, H2. simpl in H1, H2.
      split; constructor; try done. simpl. repeat split; try done. congruence.
    + destruct (mapped rest (S calls)) as [parts calls'] eqn:E. simpl.
      destruct (IH (S calls)) as [H1 H2]. rewrite E in H1, H2. simpl in H1, H2.
      split; constructor; try done. simpl. repeat split; try done. congruence.
Qed.

Lemma filter_tools (parts : list (Content NewTool)) :
  Forall (fun part => isToolCall NewTool part = true) parts ->
  filter (fun part => isToolCall NewTool part = true) parts = parts.
Proof.
  induction 1 as [|part parts H _ IH]; [done|].
  rewrite filter_cons. destruct (decide _); [by rewrite IH|done].
Qed.

(** the result of [doGenerate] on a response with a first choice, in
    one equation *)
Lemma doGenerate_cases simulate warnings response calls choice :
  head (choices response) = Some choice ->
  exists g text,
    (generate simulate warnings response calls).1 = inr g
    /\ gen_finishReason NewTool g = mapSarvamFinishReason (finish_reason choice)
    /\ gen_warnings NewTool g = warnings
    /\ (text = [] \/ exists s, s <> "" /\ text = [Text s])
    /\ match simulated simulate (content (message choice)) with
       | Some newTool =>
           gen_content NewTool g = reasoningPart choice ++ [SimulatedToolCall newTool]
       | None =>
           gen_content NewTool g
           = reasoningPart choice ++ text
               ++ (mapped (default [] (tool_calls (message choice))) calls).1
       end.
Proof.
  intros Hc. unfold doGenerate. destruct (choices response) as [|c rest]; [done|].
  injection Hc as ->. unfold reasoningPart.
  set (r := if Js.truthy (reasoning (message choice)) then _ else _).
  set (tcs := match tool_calls (message choice) with Some _ => _ | None => _ end).
  assert (Htcs : (mapped (default [] (tool_calls (message choice))) calls).1
                 = default [] tcs.1).
  { unfold tcs. destruct (tool_calls (message choice)) as [l|]; [|done]. simpl.
    by destruct (mapped l calls). }
  rewrite Htcs. destruct tcs as [toolCalls calls']. simpl. clear Htcs.
  unfold simulateToolCalling, simulated, simulatedTool.
  set (text := content (message choice)).
  assert (Hplain : forall text',
    (text' = text \/ exists j, text' = Some (JSON_stringify j)) ->
    exists g t,
      (let text0 := text' in
       let content := if Js.truthy text0 then r ++ [Text (default "" text0)] else r in
       let content0 := match toolCalls with Some tc => content ++ tc | None => content end in
       (inr (mkGenerated NewTool content0 (mapSarvamFinishReason (finish_reason choice))
               (mkUsage (usage response ≫= prompt_tokens) None None None
                  (usage response ≫= completion_tokens) None None) warnings)
          : Exception + Generated NewTool, calls')).1 = inr g
      /\ gen_finishReason NewTool g = mapSarvamFinishReason (finish_reason choice)
      /\ gen_warnings NewTool g = warnings
      /\ (t = [] \/ exists s, s <> "" /\ t = [Text s])
      /\ gen_content NewTool g = r ++ t ++ default [] toolCalls).
  { intros text' _. simpl. destruct (Js.truthy text') eqn:Ht.
    - eexists _, [Text (default "" text')]. simpl. split; [done|]. split; [done|].
      split; [done|]. split.
      + right. eexists. split; [|done]. by apply truthy_nonempty.
      + destruct toolCalls; simpl; by rewrite <- ?app_assoc.
    - eexists _, []. simpl. split; [done|]. split; [done|]. split; [done|].
      split; [by left|]. destruct toolCalls; simpl; by rewrite ?app_nil_r. }
  destruct simulate as [[|]|].
  - destruct (hasText text); [|by apply Hplain; left].
    destruct (parseJSON (default "" text)) as [j|]; simpl; [|by apply Hplain; left].
    destruct (extractToolCallData j) as [newTool|]; [|by apply Hplain; left].
    simpl. eexists _, []. simpl. split; [done|]. split; [done|]. split; [done|].
    split; [by left|done].
  - unfold simulateJsonObject. destruct (hasText text); [|by apply Hplain; left].
    destruct (parseJSON (default "" text)) as [j|]; [|by apply Hplain; left].
    apply Hplain. right. by exists j.
  - apply Hplain. by left.
Qed.

(** X14: [doGenerate] fails on a response exactly when it has no
    choice. Otherwise the content is, in this order, the reasoning of
    the first choice when it is non-empty, at most one text part, which
    is never empty, and tool calls; the finish reason is the mapped
    finish reason of the first choice and the warnings are those of
    [getArgs]. *)
Theorem X14_generate_content_shape simulate warnings response calls :
  match (generate simulate warnings response calls).1 with
  | inl e => choices response = []
  | inr g =>
      exists choice text tools,
        head (choices response) = Some choice
        /\ gen_content NewTool g = reasoningPart choice ++ text ++ tools
        /\ (text = [] \/ exists s, s <> "" /\ text = [Text s])
        /\ Forall (fun part => isToolCall NewTool part = true) tools
        /\ gen_finishReason NewTool g = mapSarvamFinishReason (finish_reason choice)
        /\ gen_warnings NewTool g = warnings
  end.
Proof.
  destruct (choices response) as [|choice rest] eqn:Hc.
  - unfold doGenerate. by rewrite Hc.
  - destruct (doGenerate_cases simulate warnings response calls choice)
      as (g & text & -> & Hf & Hw & Ht & Hcontent); [by rewrite Hc|].
    exists choice. destruct (simulated simulate (content (message choice))) as [newTool|].
    + exists [], [SimulatedToolCall newTool]. repeat split; try done.
      * by left.
      * by repeat constructor.
    + exists text, (mapped (default [] (tool_calls (message choice))) calls).1.
      repeat split; try done. apply mapToolCalls_calls.
Qed.

(** X15: when tool calling is simulated and the text of the first choice
    parses to a tool call, the content is the reasoning part followed by
    that one tool call: the text is not returned and the tool calls of
    the response are dropped, while the finish reason stays the mapped
    one of the response. *)
Theorem X15_simulated_tool_call_replaces simulate warnings response calls choice newTool :
  head (choices response) = Some choice ->
  simulated simulate (content (message choice)) = Some newTool ->
  exists g,
    (generate simulate warnings response calls).1 = inr g
    /\ gen_content NewTool g = reasoningPart choice ++ [SimulatedToolCall newTool]
    /\ gen_finishReason NewTool g = mapSarvamFinishReason (finish_reason choice).
Proof.
  intros Hc Hs.
  destruct (doGenerate_cases simulate warnings response calls choice Hc)
    as (g & text & Hg & Hf & _ & _ & Hcontent).
  rewrite Hs in Hcontent. by exists g.
Qed.

(** X16: unless a simulated tool call replaces them, the tool calls of
    the first choice are all returned, in their order and after any
    reasoning and text, each with its name and arguments and with its
    own identifier when the response gives one. *)
Theorem X16_response_tool_calls_kept simulate warnings response calls choice :
  head (choices response) = Some choice ->
  simulated simulate (content (message choice)) = None ->
  exists g,
    (generate simulate warnings response calls).1 = inr g
    /\ Forall2 (sameCall NewTool) (default [] (tool_calls (message choice)))
         (filter (fun part => isToolCall NewTool part = true) (gen_content NewTool g)).
Proof.
  intros Hc Hs.
  destruct (doGenerate_cases simulate warnings response calls choice Hc)
    as (g & text & Hg & _ & _ & Ht & Hcontent).
  rewrite Hs in Hcontent. exists g. split; [done|]. rewrite Hcontent.
  destruct (mapToolCalls_calls (default [] (tool_calls (message choice))) calls)
    as [H1 H2].
  rewrite !filter_app, (filter_tools _ H2).
  assert (filter (fun part => isToolCall NewTool part = true) (reasoningPart choice) = [])
    as -> by (unfold reasoningPart; by destruct (Js.truthy _)).
  assert (filter (fun part => isToolCall NewTool part = true) text = []) as ->
    by (destruct Ht as [->|(s & _ & ->)]; done).
  done.
Qed.

End GenerateExtras.

(** * The comparison of the model lists *)

Section SyncExtras.

Import SyncModels.

Lemma append_cancel prefix a b : prefix +:+ a = prefix +:+ b -> a = b.
Proof.
  induction prefix as [|c prefix IH]; [done|].
  change (String c (prefix +:+ a) = String c (prefix +:+ b) -> a = b).
  intros [= H]. by apply IH.
Qed.

Lemma filter_empty {A} (P : A -> Prop) `{!forall x, Decision (P x)} (l : list A) :
  Nat.eqb (length (filter P l)) 0 = true <-> Forall (fun x => ~ P x) l.
Proof.
  rewrite Nat.eqb_eq, length_zero_iff_nil. induction l as [|x l IH].
  - split; [constructor|done].
  - rewrite filter_cons. destruct (decide (P x)).
    + split; [done|]. by inversion 1.
    + rewrite IH. split; [by constructor|]. by inversion 1.
Qed.

(** X17: [diff] logs the single line saying that the lists are in sync
    exactly when both lists have the same elements, whatever their order
    and repetitions; otherwise it logs one or two lines, none of which
    is that line. *)
Theorem X17_diff_in_sync label sdk provider :
  ((forall v, v ∈ sdk <-> v ∈ provider) -> diff label sdk provider = [inSync label])
  /\ (~ (forall v, v ∈ sdk <-> v ∈ provider) ->
      diff label sdk provider <> [] /\ inSync label ∉ diff label sdk provider).
Proof.
  unfold diff.
  set (missing := filter (fun v => v ∉ (list_to_set provider : gset string)) sdk).
  set (extra := filter (fun v => v ∉ (list_to_set sdk : gset string)) provider).
  assert (Hsame : Nat.eqb (length missing) 0 && Nat.eqb (length extra) 0 = true
                  <-> forall v, v ∈ sdk <-> v ∈ provider).
  { rewrite andb_true_iff. unfold missing, extra. rewrite !filter_empty, !Forall_forall.
    split.
    - intros [H1 H2] v. split; intros Hv.
      + specialize (H1 v Hv). apply dec_stable in H1. by apply elem_of_list_to_set in H1.
      + specialize (H2 v Hv). apply dec_stable in H2. by apply elem_of_list_to_set in H2.
    - intros H. split; intros v Hv Hn; apply Hn, elem_of_list_to_set, H, Hv. }
  split.
  - intros H. apply Hsame in H. by rewrite H.
  - intros H. destruct (Nat.eqb (length missing) 0 && Nat.eqb (length extra) 0) eqn:E.
    { exfalso. by apply H, Hsame. }
    assert (Hline : forall rest words, inSync label <> "  " +:+ label +:+ " — " +:+ rest +:+ words).
    { intros rest words Heq. unfold inSync in Heq.
      apply append_cancel, append_cancel in Heq. discriminate Heq. }
    apply andb_false_iff in E. split.
    + destruct E as [E|E]; apply Nat.eqb_neq in E.
      * destruct (Nat.ltb_spec 0 (length missing)); [done|lia].
      * destruct (Nat.ltb_spec 0 (length extra)); [|lia].
        by destruct (0 <? length missing)%nat.
    + rewrite elem_of_app. intros [Hin|Hin].
      * destruct (0 <? length missing)%nat; [|by inversion Hin].
        apply list_elem_of_singleton in Hin.
        by apply (Hline "missing from provider: " (String.concat ", " missing)).
      * destruct (0 <? length extra)%nat; [|by inversion Hin].
        apply list_elem_of_singleton in Hin.
        by apply (Hline "extra in provider (not in SDK): " (String.concat ", " extra)).
Qed.

End SyncExtras.

(** * The further properties at sample calls *)

Section StreamCases.

Import MapFinishReason ChatModel StreamSpec StreamMore Samples.

Lemma X1_witness :
  exists body,
    textStreamOut.*2
    = body ++ [Finish (lastFinishReason textStream) (lastUsage textStream)]
    /\ Forall (fun p => isFinish p = false) body.
Proof.
  apply (X1_finish_part env textStream textStreamOut).
  vm_compute. reflexivity.
Defined.


End StreamCases.

Section OtherCases.

Import ConvertMessages ConvertMore Cases.

Lemma X7_witness :
  convertToSarvamChatMessages string (fun s => s) (fun _ => "") userOnly
    (Some "Respond with a JSON object.")
  = convertToSarvamChatMessages string (fun s => s) (fun _ => "") userOnly None.
Proof.
  apply (X7_fake_prompt_needs_system_turn string (fun s => s) (fun _ => "") userOnly).
  reflexivity.
Defined.

Lemma X9_witness :
  exists messages args,
    TranslationModel.getArgs string (fun s => s) (fun _ => "") toHindi userOnly
    = inr (messages, args)
    /\ snd (TranslationModel.doGenerate string (fun s => s) (fun _ => "") Samples.noServer
              toHindi userOnly (TranslationModel.mkWorld []))
       = TranslationModel.mkWorld [TranslationModel.mkRequest "/translate" args]
    /\ TranslationModel.input args = "Hello" +:+ newline +:+ "Translate this."
    /\ TranslationModel.source_language_code args = "auto"
    /\ TranslationModel.target_language_code args = Some "hi-IN"
    /\ TranslationModel.args_model args = "mayura:v1".
Proof.
  apply (X9_translation_request string (fun s => s) (fun _ => "") Samples.noServer
           toHindi userOnly (TranslationModel.mkWorld [])).
  - unfold TranslationModel.rejected. vm_compute.
    intros [H|[H _]]; discriminate H.
  - reflexivity.
Defined.

Lemma X11_witness :
  exists messages args,
    TransliterateModel.getArgs string (fun s => s) (fun _ => "") romanise userOnly
    = inr (messages, args)
    /\ snd (TransliterateModel.doGenerate string (fun s => s) (fun _ => "") unavailable
              romanise userOnly (TransliterateModel.mkWorld []))
       = TransliterateModel.mkWorld [TransliterateModel.mkRequest "/transliterate" args]
    /\ TransliterateModel.input args = "Hello" +:+ newline +:+ "Translate this."
    /\ TransliterateModel.source_language_code args = "hi-IN"
    /\ TransliterateModel.target_language_code args = Some "en-IN"
    /\ (is_Some (TransliterateModel.args_spoken_form args) <-> Some true = Some true).
Proof.
  apply (X11_transliteration_request string (fun s => s) (fun _ => "") unavailable
           romanise userOnly (TransliterateModel.mkWorld [])).
  - right. left. reflexivity.
  - reflexivity.
Defined.

Lemma X12_witness :
  SpeechModel.field Z "response_format" oggBody = None
  /\ [SpeechModel.formatWarning "ogg"] = [SpeechModel.formatWarning "ogg"].
Proof.
  apply (X12_speech_output_format Z "bulbul:v2" "hi-IN" None "Hello" None (Some "ogg")
           oggBody [SpeechModel.formatWarning "ogg"]).
  reflexivity.
Defined.

Lemma X15_witness :
  exists g,
    (ChatGenerate.doGenerate string string readJson anyTool (fun s => s) callId
       (Some ChatGenerate.ToolCalling) [] jsonReply 0).1 = inr g
    /\ ChatGenerate.gen_content string g
       = [ ChatGenerate.Reasoning "The user wants the weather.";
           ChatGenerate.SimulatedToolCall (Js.dq "{'name':'weather','arguments':{}}") ]
    /\ ChatGenerate.gen_finishReason string g
       = MapFinishReason.mkFinishReason MapFinishReason.Stop (Some "stop").
Proof.
  apply (X15_simulated_tool_call_replaces string string readJson anyTool (fun s => s) callId
           (Some ChatGenerate.ToolCalling) [] jsonReply 0
           (ChatGenerate.mkResponseChoice
              (ChatGenerate.mkMessage
                 (Some (Js.dq "{'name':'weather','arguments':{}}"))
                 (Some "The user wants the weather.")
                 (Some [ChatGenerate.mkResponseToolCall (Some "call_1") "lookup" "{}"]))
              (Js.Val "stop"))
           (Js.dq "{'name':'weather','arguments':{}}")).
  - reflexivity.
  - vm_compute. reflexivity.
Defined.

Lemma X16_witness :
  exists g,
    (ChatGenerate.doGenerate string string readJson anyTool (fun s => s) callId
       None [] toolReply 0).1 = inr g
    /\ Forall2 (ChatGenerate.sameCall string)
         [ ChatGenerate.mkResponseToolCall (Some "call_1") "lookup" "{}";
           ChatGenerate.mkResponseToolCall None "search" "{}" ]
         (filter (fun part => ChatGenerate.isToolCall string part = true)
                 (ChatGenerate.gen_content string g)).
Proof.
  apply (X16_response_tool_calls_kept string string readJson anyTool (fun s => s) callId
           None [] toolReply 0
           (ChatGenerate.mkResponseChoice
              (ChatGenerate.mkMessage
                 (Some "Looking it up.") None
                 (Some [ChatGenerate.mkResponseToolCall (Some "call_1") "lookup" "{}";
                        ChatGenerate.mkResponseToolCall None "search" "{}"]))
              (Js.Val "tool_calls"))).
  - reflexivity.
  - reflexivity.
Defined.

(** the ids of a reply whose second tool call has none *)
Example generated_id :
  ChatGenerate.doGenerate string string readJson anyTool (fun s => s) callId
    None [] toolReply 0
  = (inr (ChatGenerate.mkGenerated string
            [ ChatGenerate.Text "Looking it up.";
              ChatGenerate.ToolCall "call_1" "lookup" "{}";
              ChatGenerate.ToolCall "id-0" "search" "{}" ]
            (MapFinishReason.mkFinishReason MapFinishReason.ToolCalls (Some "tool_calls"))
            (ChatModel.mkUsage (Some 18%Z) None None None (Some 439%Z) None None)
            []),
     1).
Proof. reflexivity. Qed.

Example repeated_model :
  SyncModels.diff "Models" ["bulbul:v2"; "bulbul:v3"; "bulbul:v3"] ["bulbul:v3"; "bulbul:v2"]
  = ["  Models: in sync"].
Proof. reflexivity. Qed.

End OtherCases.
